(** * decrypt-secrets.py: key derivation, password verification,
      AES-GCM decryption and the per-service decryption loop

    A shallow embedding of [Scripts/Linux/decrypt-secrets.py] together with
    executable models of the library routines the script calls
    ([base64.b64decode], [str.encode], [bytes.decode], PBKDF2-HMAC-SHA-256 and
    AES-GCM), followed by the properties proved about them. *)

From Stdlib Require Import ZArith NArith List Bool Lia String Ascii.
From Stdlib Require Import Strings.Byte DecimalString.
Import ListNotations.
Local Open Scope Z_scope.

(** ** Python values *)

(** A Python [bytes] object. *)
Definition bytes := list byte.

(** A Python [str]: a sequence of Unicode code points.  Every code point of a
    real [str] is below [0x110000]; lone surrogates ([0xD800]-[0xDFFF]) are
    legal in a [str] and only rejected by the UTF-8 encoder. *)
Definition pystr := list N.

Definition Z_of_byte (b : byte) : Z := Z.of_N (Byte.to_N b).

Definition byte_of_Z (z : Z) : byte :=
  match Byte.of_N (Z.to_N (z mod 256)) with
  | Some b => b
  | None => x00
  end.

(** An ASCII literal as a Python string. *)
Definition py (s : string) : pystr := map N_of_ascii (list_ascii_of_string s).

(** [str(n)] for a non-negative integer. *)
Definition py_decimal (n : N) : pystr := py (NilEmpty.string_of_uint (N.to_uint n)).

Definition hex_digit (d : N) : N :=
  nth (N.to_nat d) (py "0123456789abcdef") 48%N.

(** [width] lowercase hexadecimal digits of [n], most significant first
    (the C format [%0<width>x]). *)
Fixpoint py_hex (width : nat) (n : N) : pystr :=
  match width with
  | O => []
  | S w => py_hex w (N.shiftr n 4) ++ [hex_digit (N.land n 15)]
  end.

(** ** Exceptions *)

(** The exception classes the modelled operations raise.  All of them derive
    from [Exception], so an [except Exception] clause catches every one. *)
Inductive exn_class : Set :=
| ValueError
| BinasciiError
| TypeError
| UnicodeEncodeError
| UnicodeDecodeError
| InvalidTag.

(** An exception instance: its class and the text [str(e)] renders. *)
Record exn : Set := mkExn { exn_cls : exn_class; exn_text : pystr }.

Inductive result (A : Type) : Type :=
| Ok (a : A)
| Raise (e : exn).
Arguments Ok {A} a.
Arguments Raise {A} e.

Definition bind {A B : Type} (r : result A) (k : A -> result B) : result B :=
  match r with
  | Ok a => k a
  | Raise e => Raise e
  end.

Notation "x <- r ;; k" := (bind r (fun x => k))
  (at level 61, r at next level, right associativity).

(** [try: body  except Exception as e: handler(e)]. *)
Definition try_except {A : Type} (body : result A) (handler : exn -> result A)
  : result A :=
  match body with
  | Ok a => Ok a
  | Raise e => handler e
  end.

(** ** [str.encode('utf-8')] *)

Definition is_surrogate (c : N) : bool := ((0xD800 <=? c) && (c <=? 0xDFFF))%N.

Fixpoint surrogate_run (s : pystr) : N :=
  match s with
  | c :: r => if is_surrogate c then N.succ (surrogate_run r) else 0%N
  | [] => 0%N
  end.

Definition utf8_codec_name : pystr := py "'utf-8' codec can't ".

(** [str(e)] of the [UnicodeEncodeError] raised for the run of [len]
    surrogates that starts with [c] at index [pos]. *)
Definition encode_error (c pos len : N) : exn :=
  mkExn UnicodeEncodeError
    (utf8_codec_name ++
     (if (len =? 1)%N
      then py "encode character '\u" ++ py_hex 4 c ++ py "' in position "
           ++ py_decimal pos
      else py "encode characters in position " ++ py_decimal pos ++ py "-"
           ++ py_decimal (pos + len - 1))
     ++ py ": surrogates not allowed").

Definition cont_byte (z : Z) : byte := byte_of_Z (Z.lor 0x80 (Z.land z 0x3F)).

Fixpoint utf8_encode_from (pos : N) (s : pystr) : result bytes :=
  match s with
  | [] => Ok []
  | c :: r =>
    let z := Z.of_N c in
    if is_surrogate c then Raise (encode_error c pos (surrogate_run s))
    else
      tl <- utf8_encode_from (pos + 1) r ;;
      Ok ((if z <? 0x80 then [byte_of_Z z]
           else if z <? 0x800 then
             [byte_of_Z (Z.lor 0xC0 (Z.shiftr z 6)); cont_byte z]
           else if z <? 0x10000 then
             [byte_of_Z (Z.lor 0xE0 (Z.shiftr z 12));
              cont_byte (Z.shiftr z 6); cont_byte z]
           else
             [byte_of_Z (Z.lor 0xF0 (Z.shiftr z 18));
              cont_byte (Z.shiftr z 12); cont_byte (Z.shiftr z 6);
              cont_byte z]) ++ tl)
  end.

(** [s.encode('utf-8')] *)
Definition utf8_encode (s : pystr) : result bytes := utf8_encode_from 0 s.

(** ** [bytes.decode('utf-8')] *)

Definition is_continuation (z : Z) : bool := (0x80 <=? z) && (z <? 0xC0).

(** [str(e)] of the [UnicodeDecodeError] for the bytes at [start, stop). *)
Definition decode_error (first : byte) (start stop : N) (reason : string) : exn :=
  mkExn UnicodeDecodeError
    (utf8_codec_name ++
     (if (stop =? start + 1)%N
      then py "decode byte 0x" ++ py_hex 2 (Byte.to_N first) ++ py " in position "
           ++ py_decimal start
      else py "decode bytes in position " ++ py_decimal start ++ py "-"
           ++ py_decimal (stop - 1))
     ++ py ": " ++ py reason).

Definition invalid_start b pos := decode_error b pos (pos + 1) "invalid start byte".
Definition invalid_continuation b pos (n : N) :=
  decode_error b pos (pos + n) "invalid continuation byte".
Definition unexpected_end b pos (remaining : list byte) :=
  decode_error b pos (pos + 1 + N.of_nat (List.length remaining)) "unexpected end of data".

(** The strict decoder, following the case analysis of CPython's
    [utf8_decode]: the lead byte selects the sequence length, the second byte
    is range-checked against overlong forms, surrogates and values above
    [0x10FFFF], and a sequence cut short by the end of the input is reported
    as such only when the bytes that are present are acceptable. *)
Fixpoint utf8_decode_from (pos : N) (data : bytes) : result pystr :=
  match data with
  | [] => Ok []
  | b0 :: r0 =>
    let c0 := Z_of_byte b0 in
    if c0 <? 0x80 then
      tl <- utf8_decode_from (pos + 1) r0 ;; Ok (Z.to_N c0 :: tl)
    else if c0 <? 0xC2 then Raise (invalid_start b0 pos)
    else if c0 <? 0xE0 then
      match r0 with
      | [] => Raise (unexpected_end b0 pos r0)
      | b1 :: r1 =>
        let c1 := Z_of_byte b1 in
        if negb (is_continuation c1) then Raise (invalid_continuation b0 pos 1)
        else
          tl <- utf8_decode_from (pos + 2) r1 ;;
          Ok (Z.to_N (Z.shiftl c0 6 + c1 - (Z.shiftl 0xC0 6 + 0x80)) :: tl)
      end
    else if c0 <? 0xF0 then
      match r0 with
      | [] => Raise (unexpected_end b0 pos r0)
      | b1 :: r1 =>
        let c1 := Z_of_byte b1 in
        if negb (is_continuation c1)
           || (if c1 <? 0xA0 then c0 =? 0xE0 else c0 =? 0xED)
        then Raise (invalid_continuation b0 pos 1)
        else
          match r1 with
          | [] => Raise (unexpected_end b0 pos r0)
          | b2 :: r2 =>
            let c2 := Z_of_byte b2 in
            if negb (is_continuation c2) then Raise (invalid_continuation b0 pos 2)
            else
              tl <- utf8_decode_from (pos + 3) r2 ;;
              Ok (Z.to_N (Z.shiftl c0 12 + Z.shiftl c1 6 + c2
                           - (Z.shiftl 0xE0 12 + Z.shiftl 0x80 6 + 0x80)) :: tl)
          end
      end
    else if c0 <? 0xF5 then
      match r0 with
      | [] => Raise (unexpected_end b0 pos r0)
      | b1 :: r1 =>
        let c1 := Z_of_byte b1 in
        if negb (is_continuation c1)
           || (if c1 <? 0x90 then c0 =? 0xF0 else c0 =? 0xF4)
        then Raise (invalid_continuation b0 pos 1)
        else
          match r1 with
          | [] => Raise (unexpected_end b0 pos r0)
          | b2 :: r2 =>
            let c2 := Z_of_byte b2 in
            if negb (is_continuation c2) then Raise (invalid_continuation b0 pos 2)
            else
              match r2 with
              | [] => Raise (unexpected_end b0 pos r0)
              | b3 :: r3 =>
                let c3 := Z_of_byte b3 in
                if negb (is_continuation c3)
                then Raise (invalid_continuation b0 pos 3)
                else
                  tl <- utf8_decode_from (pos + 4) r3 ;;
                  Ok (Z.to_N (Z.shiftl c0 18 + Z.shiftl c1 12 + Z.shiftl c2 6 + c3
                               - (Z.shiftl 0xF0 18 + Z.shiftl 0x80 12
                                  + Z.shiftl 0x80 6 + 0x80)) :: tl)
              end
          end
      end
    else Raise (invalid_start b0 pos)
  end.

(** [data.decode('utf-8')] *)
Definition utf8_decode (data : bytes) : result pystr := utf8_decode_from 0 data.

(** ** [base64.b64decode] *)

(** [binascii]'s decoding table restricted to ASCII input: the value of a
    Base64 alphabet character, and [255] for every other character. *)
Definition table_a2b_base64 (c : Z) : Z :=
  if (65 <=? c) && (c <=? 90) then c - 65
  else if (97 <=? c) && (c <=? 122) then c - 71
  else if (48 <=? c) && (c <=? 57) then c + 4
  else if c =? 43 then 62
  else if c =? 47 then 63
  else 255.

Definition BASE64_PAD : Z := 61.

Definition incorrect_padding : exn := mkExn BinasciiError (py "Incorrect padding").

Definition invalid_length (written : nat) : exn :=
  mkExn BinasciiError
    (py "Invalid base64-encoded string: number of data characters ("
     ++ py_decimal (N.of_nat written / 3 * 4 + 1)
     ++ py ") cannot be 1 more than a multiple of 4").

(** The loop of [binascii.a2b_base64] in its default, non-strict mode.
    [quad_pos] is the position inside the current group of four characters,
    [leftchar] the bits left over from the previous character, [pads] the
    number of consecutive [=] seen, [out] the bytes written so far.
    Characters outside the alphabet are skipped; a completed pad sequence
    ends the decoding and whatever follows it is ignored. *)
Fixpoint a2b_base64_loop (data : bytes) (quad_pos leftchar pads : Z) (out : bytes)
  : result bytes :=
  match data with
  | [] =>
    if quad_pos =? 0 then Ok out
    else if quad_pos =? 1 then Raise (invalid_length (List.length out))
    else Raise incorrect_padding
  | ch :: rest =>
    let this_ch := Z_of_byte ch in
    if this_ch =? BASE64_PAD then
      if 2 <=? quad_pos then
        if 4 <=? quad_pos + (pads + 1) then Ok out
        else a2b_base64_loop rest quad_pos leftchar (pads + 1) out
      else a2b_base64_loop rest quad_pos leftchar pads out
    else
      let v := table_a2b_base64 this_ch in
      if 64 <=? v then a2b_base64_loop rest quad_pos leftchar pads out
      else if quad_pos =? 0 then a2b_base64_loop rest 1 v 0 out
      else if quad_pos =? 1 then
        a2b_base64_loop rest 2 (Z.land v 0x0f) 0
          (out ++ [byte_of_Z (Z.lor (Z.shiftl leftchar 2) (Z.shiftr v 4))])
      else if quad_pos =? 2 then
        a2b_base64_loop rest 3 (Z.land v 0x03) 0
          (out ++ [byte_of_Z (Z.lor (Z.shiftl leftchar 4) (Z.shiftr v 2))])
      else
        a2b_base64_loop rest 0 0 0
          (out ++ [byte_of_Z (Z.lor (Z.shiftl leftchar 6) v)])
  end.

Definition a2b_base64 (data : bytes) : result bytes :=
  a2b_base64_loop data 0 0 0 [].

(** A value read from the JSON state document, as far as the script looks at
    it: a string, or any other JSON value, of which only its type name and
    its [str()] rendering are observed. *)
Inductive pyvalue : Type :=
| PyStr (s : pystr)
| PyOther (type_name rendering : pystr).


(** [s.encode('ascii')] inside [base64._bytes_from_decode_data]. *)
Definition ascii_encode (s : pystr) : option bytes :=
  if forallb (fun c => (c <? 128)%N) s
  then Some (map (fun c => byte_of_Z (Z.of_N c)) s)
  else None.

Definition bytes_from_decode_data (v : pyvalue) : result bytes :=
  match v with
  | PyStr s =>
    match ascii_encode s with
    | Some b => Ok b
    | None =>
      Raise (mkExn ValueError (py "string argument should contain only ASCII characters"))
    end
  | PyOther type_name _ =>
    Raise (mkExn TypeError
             (py "argument should be a bytes-like object or ASCII string, not '"
              ++ type_name ++ py "'"))
  end.

(** [base64.b64decode(v)] with the default [altchars=None, validate=False]. *)
Definition b64decode (v : pyvalue) : result bytes :=
  s <- bytes_from_decode_data v ;; a2b_base64 s.

(** Standard Base64 encoding (RFC 4648, with padding), the [Base64(...)] of
    the script's header comment: the encoding under which the state document
    stores the salt, the hash and every encrypted value. *)
Definition b64_alphabet (v : Z) : N :=
  Z.to_N (if v <? 26 then v + 65
          else if v <? 52 then v + 71
          else if v <? 62 then v - 4
          else if v =? 62 then 43
          else 47).

(** The four 6-bit groups of three bytes [x], [y], [z]. *)
Definition sextet1 (x : Z) : Z := Z.shiftr x 2.
Definition sextet2 (x y : Z) : Z := Z.lor (Z.shiftl (Z.land x 3) 4) (Z.shiftr y 4).
Definition sextet3 (y z : Z) : Z := Z.lor (Z.shiftl (Z.land y 15) 2) (Z.shiftr z 6).
Definition sextet4 (z : Z) : Z := Z.land z 63.

(** A final group of one or two bytes is completed with zero bits and
    padded with [=]. *)
Fixpoint b64encode (data : bytes) : pystr :=
  match data with
  | [] => []
  | [b1] =>
    let x := Z_of_byte b1 in
    [b64_alphabet (sextet1 x); b64_alphabet (sextet2 x 0); 61%N; 61%N]
  | [b1; b2] =>
    let x := Z_of_byte b1 in
    let y := Z_of_byte b2 in
    [b64_alphabet (sextet1 x); b64_alphabet (sextet2 x y);
     b64_alphabet (sextet3 y 0); 61%N]
  | b1 :: b2 :: b3 :: rest =>
    let x := Z_of_byte b1 in
    let y := Z_of_byte b2 in
    let z := Z_of_byte b3 in
    b64_alphabet (sextet1 x) :: b64_alphabet (sextet2 x y)
    :: b64_alphabet (sextet3 y z) :: b64_alphabet (sextet4 z)
    :: b64encode rest
  end.

(** ** Byte-level helpers *)

Definition Zs_of_bytes (data : bytes) : list Z := map Z_of_byte data.
Definition bytes_of_Zs (l : list Z) : bytes := map byte_of_Z l.

Definition hex_value (a : ascii) : Z :=
  let n := Z.of_N (N_of_ascii a) in
  if n <? 58 then n - 48 else n - 87.

(** The bytes written as a run of lowercase hexadecimal digit pairs. *)
Fixpoint unhex (s : string) : list Z :=
  match s with
  | String hi (String lo rest) => (16 * hex_value hi + hex_value lo) :: unhex rest
  | _ => []
  end.

(** Big-endian integer of a byte sequence, and the [n]-byte big-endian
    encoding of an integer. *)
Definition be_to_Z (l : list Z) : Z := fold_left (fun acc b => 256 * acc + b) l 0.

Fixpoint Z_to_be (n : nat) (z : Z) : list Z :=
  match n with
  | O => []
  | S k => Z_to_be k (Z.shiftr z 8) ++ [Z.land z 255]
  end.

(** Consecutive groups of [n] elements; the last group may be shorter. *)
Fixpoint chunks_fuel {A : Type} (fuel n : nat) (l : list A) : list (list A) :=
  match fuel, l with
  | O, _ | _, [] => []
  | S f, _ => firstn n l :: chunks_fuel f n (skipn n l)
  end.

Definition chunks {A : Type} (n : nat) (l : list A) : list (list A) :=
  chunks_fuel (List.length l) n l.

Definition xor_bytes (a b : bytes) : bytes :=
  map (fun p => byte_of_Z (Z.lxor (Z_of_byte (fst p)) (Z_of_byte (snd p))))
      (combine a b).

(** ** SHA-256 (FIPS 180-4) *)

Module SHA256.

Definition mask32 : Z := 0xFFFFFFFF.
Definition add32 (x y : Z) : Z := Z.land (x + y) mask32.
Definition rotr (n x : Z) : Z :=
  Z.lor (Z.shiftr x n) (Z.land (Z.shiftl x (32 - n)) mask32).

Definition Ch (x y z : Z) : Z :=
  Z.lxor (Z.land x y) (Z.land (Z.lxor x mask32) z).
Definition Maj (x y z : Z) : Z :=
  Z.lxor (Z.lxor (Z.land x y) (Z.land x z)) (Z.land y z).
Definition Sigma0 (x : Z) : Z := Z.lxor (Z.lxor (rotr 2 x) (rotr 13 x)) (rotr 22 x).
Definition Sigma1 (x : Z) : Z := Z.lxor (Z.lxor (rotr 6 x) (rotr 11 x)) (rotr 25 x).
Definition sigma0 (x : Z) : Z := Z.lxor (Z.lxor (rotr 7 x) (rotr 18 x)) (Z.shiftr x 3).
Definition sigma1 (x : Z) : Z := Z.lxor (Z.lxor (rotr 17 x) (rotr 19 x)) (Z.shiftr x 10).

Definition words_of (l : list Z) : list Z := map be_to_Z (chunks 4 l).

(** The sixty-four round constants. *)
Definition K : list Z := Eval vm_compute in words_of (unhex
  "428a2f9871374491b5c0fbcfe9b5dba53956c25b59f111f1923f82a4ab1c5ed5d807aa9812835b01243185be550c7dc372be5d7480deb1fe9bdc06a7c19bf174e49b69c1efbe47860fc19dc6240ca1cc2de92c6f4a7484aa5cb0a9dc76f988da983e5152a831c66db00327c8bf597fc7c6e00bf3d5a7914706ca63511429296727b70a852e1b21384d2c6dfc53380d13650a7354766a0abb81c2c92e92722c85a2bfe8a1a81a664bc24b8b70c76c51a3d192e819d6990624f40e3585106aa07019a4c1161e376c082748774c34b0bcb5391c0cb34ed8aa4a5b9cca4f682e6ff3748f82ee78a5636f84c878148cc7020890befffaa4506cebbef9a3f7c67178f2").

(** A hash value: the eight working words. *)
Definition state : Type := (Z * Z * Z * Z * Z * Z * Z * Z)%type.

Definition H0 : state :=
  (0x6a09e667, 0xbb67ae85, 0x3c6ef372, 0xa54ff53a,
   0x510e527f, 0x9b05688c, 0x1f83d9ab, 0x5be0cd19).

(** The message schedule: [n] further words after the window [w] of the
    sixteen most recent ones (oldest first). *)
Fixpoint schedule (n : nat) (w : list Z) : list Z :=
  match n with
  | O => []
  | S k =>
    let x := add32 (add32 (sigma1 (nth 14 w 0)) (nth 9 w 0))
                   (add32 (sigma0 (nth 1 w 0)) (nth 0 w 0)) in
    x :: schedule k (tl w ++ [x])
  end.

Definition round (s : state) (kw : Z * Z) : state :=
  let '(a, b, c, d, e, f, g, h) := s in
  let t1 := add32 (add32 (add32 h (Sigma1 e)) (add32 (Ch e f g) (fst kw))) (snd kw) in
  let t2 := add32 (Sigma0 a) (Maj a b c) in
  (add32 t1 t2, a, b, c, add32 d t1, e, f, g).

Definition compress (s : state) (block : list Z) : state :=
  let w16 := words_of block in
  let w := w16 ++ schedule 48 w16 in
  let '(a, b, c, d, e, f, g, h) := fold_left round (combine K w) s in
  let '(a0, b0, c0, d0, e0, f0, g0, h0) := s in
  (add32 a0 a, add32 b0 b, add32 c0 c, add32 d0 d,
   add32 e0 e, add32 f0 f, add32 g0 g, add32 h0 h).

Definition pad (msg : list Z) : list Z :=
  let len := Z.of_nat (List.length msg) in
  msg ++ [0x80] ++ repeat 0 (Z.to_nat ((55 - len) mod 64)) ++ Z_to_be 8 (8 * len).

Definition digest_of (s : state) : list Z :=
  let '(a, b, c, d, e, f, g, h) := s in
  Z_to_be 4 a ++ Z_to_be 4 b ++ Z_to_be 4 c ++ Z_to_be 4 d
  ++ Z_to_be 4 e ++ Z_to_be 4 f ++ Z_to_be 4 g ++ Z_to_be 4 h.

Definition sha256 (msg : bytes) : bytes :=
  bytes_of_Zs (digest_of (fold_left compress (chunks 64 (pad (Zs_of_bytes msg))) H0)).

End SHA256.

(** ** HMAC (RFC 2104) over SHA-256 *)

Definition hmac_block_size : nat := 64.

Definition hmac_sha256 (key msg : bytes) : bytes :=
  let k := if (hmac_block_size <? List.length key)%nat then SHA256.sha256 key else key in
  let k' := k ++ repeat x00 (hmac_block_size - List.length k) in
  let ipad := xor_bytes k' (repeat (byte_of_Z 0x36) hmac_block_size) in
  let opad := xor_bytes k' (repeat (byte_of_Z 0x5c) hmac_block_size) in
  SHA256.sha256 (opad ++ SHA256.sha256 (ipad ++ msg)).

(** ** PBKDF2 (RFC 8018, section 5.2) *)

Section PBKDF2.

Variable prf : bytes -> bytes -> bytes.
Variable hLen : nat.

(** [F(P, S, c, i) = U_1 xor U_2 xor ... xor U_c]. *)
Definition pbkdf2_F (P S : bytes) (c : N) (i : Z) : bytes :=
  let U1 := prf P (S ++ bytes_of_Zs (Z_to_be 4 i)) in
  fst (N.iter (c - 1)
         (fun st => let u := prf P (snd st) in (xor_bytes (fst st) u, u))
         (U1, U1)).

Definition pbkdf2 (P S : bytes) (c : N) (dkLen : nat) : bytes :=
  let l := ((dkLen + hLen - 1) / hLen)%nat in
  firstn dkLen
    (flat_map (fun i => pbkdf2_F P S c (Z.of_nat i)) (seq 1 l)).

End PBKDF2.

(** [PBKDF2HMAC(algorithm=hashes.SHA256(), length=length, salt=salt,
    iterations=iterations).derive(key_material)] *)
Definition PBKDF2HMAC_SHA256_derive
  (length : nat) (salt : bytes) (iterations : N) (key_material : bytes) : bytes :=
  pbkdf2 hmac_sha256 32 key_material salt iterations length.

(** ** AES (FIPS 197), forward cipher *)

Module AES.

Definition xtime (b : Z) : Z :=
  Z.land (Z.lxor (Z.shiftl b 1) (if Z.testbit b 7 then 0x1b else 0)) 0xFF.

(** Multiplication in GF(2^8) modulo [x^8 + x^4 + x^3 + x + 1]. *)
Fixpoint gmul_bits (n : nat) (a b : Z) : Z :=
  match n with
  | O => 0
  | S k => Z.lxor (if Z.odd b then a else 0) (gmul_bits k (xtime a) (Z.shiftr b 1))
  end.
Definition gmul (a b : Z) : Z := gmul_bits 8 a b.

(** The multiplicative inverse [a^254] (and [0] for [0]). *)
Definition ginv (a : Z) : Z :=
  let a2 := gmul a a in
  let a4 := gmul a2 a2 in
  let a8 := gmul a4 a4 in
  let a16 := gmul a8 a8 in
  let a32 := gmul a16 a16 in
  let a64 := gmul a32 a32 in
  let a128 := gmul a64 a64 in
  gmul a2 (gmul a4 (gmul a8 (gmul a16 (gmul a32 (gmul a64 a128))))).

Definition rotl8 (x n : Z) : Z :=
  Z.land (Z.lor (Z.shiftl x n) (Z.shiftr x (8 - n))) 0xFF.

(** The S-box: inversion followed by the affine transformation. *)
Definition sbox_value (a : Z) : Z :=
  let i := ginv a in
  Z.lxor (Z.lxor (Z.lxor (Z.lxor (Z.lxor i (rotl8 i 1)) (rotl8 i 2)) (rotl8 i 3))
                 (rotl8 i 4)) 0x63.

Definition sbox_table : list Z :=
  Eval vm_compute in map (fun n => sbox_value (Z.of_nat n)) (seq 0 256).

Definition SubByte (b : Z) : Z := nth (Z.to_nat b) sbox_table 0.

Definition xor_list (a b : list Z) : list Z :=
  map (fun p => Z.lxor (fst p) (snd p)) (combine a b).

Definition rot_word (w : list Z) : list Z := tl w ++ firstn 1 w.

(** Key expansion: [n] further words after the words [ws], the next of which
    has index [i]; [rcon] is the round constant for the next multiple of
    [Nk]. *)
Fixpoint expand (n Nk i : nat) (rcon : Z) (ws : list (list Z)) : list (list Z) :=
  match n with
  | O => ws
  | S k =>
    let prev := nth (i - 1) ws [] in
    let old := nth (i - Nk) ws [] in
    if (i mod Nk =? 0)%nat then
      expand k Nk (S i) (xtime rcon)
        (ws ++ [xor_list old (xor_list (map SubByte (rot_word prev)) [rcon; 0; 0; 0])])
    else if (6 <? Nk)%nat && (i mod Nk =? 4)%nat then
      expand k Nk (S i) rcon (ws ++ [xor_list old (map SubByte prev)])
    else
      expand k Nk (S i) rcon (ws ++ [xor_list old prev])
  end.

(** The [Nr + 1] round keys of sixteen bytes each, [Nr = Nk + 6]. *)
Definition key_schedule (key : list Z) : list (list Z) :=
  let Nk := (List.length key / 4)%nat in
  let total := (4 * (Nk + 7))%nat in
  map (@List.concat Z) (chunks 4 (expand (total - Nk) Nk Nk 1 (chunks 4 key))).

(** The state is kept in input order: byte [r + 4c] is row [r], column [c]. *)
Definition shift_rows (st : list Z) : list Z :=
  map (fun i => nth (i mod 4 + 4 * ((i / 4 + i mod 4) mod 4)) st 0) (seq 0 16).

Definition mix_column (col : list Z) : list Z :=
  let a := nth 0 col 0 in
  let b := nth 1 col 0 in
  let c := nth 2 col 0 in
  let d := nth 3 col 0 in
  [Z.lxor (Z.lxor (gmul 2 a) (gmul 3 b)) (Z.lxor c d);
   Z.lxor (Z.lxor a (gmul 2 b)) (Z.lxor (gmul 3 c) d);
   Z.lxor (Z.lxor a b) (Z.lxor (gmul 2 c) (gmul 3 d));
   Z.lxor (Z.lxor (gmul 3 a) b) (Z.lxor c (gmul 2 d))].

Definition mix_columns (st : list Z) : list Z := flat_map mix_column (chunks 4 st).

Fixpoint rounds (rks : list (list Z)) (st : list Z) : list Z :=
  match rks with
  | [] => st
  | [final] => xor_list (shift_rows (map SubByte st)) final
  | rk :: more =>
    rounds more (xor_list (mix_columns (shift_rows (map SubByte st))) rk)
  end.

Definition encrypt_block (rks : list (list Z)) (block : list Z) : list Z :=
  match rks with
  | [] => block
  | rk0 :: rest => rounds rest (xor_list block rk0)
  end.

End AES.

(** ** Galois/Counter Mode (NIST SP 800-38D) *)

Module GCM.

(** Blocks are 128-bit integers whose most significant bit is the leftmost
    bit of the block. *)
Definition R : Z := Z.shiftl 0xe1 120.

Fixpoint mul_loop (n : nat) (x v z : Z) : Z :=
  match n with
  | O => z
  | S k =>
    mul_loop k x
      (if Z.odd v then Z.lxor (Z.shiftr v 1) R else Z.shiftr v 1)
      (if Z.testbit x (Z.of_nat k) then Z.lxor z v else z)
  end.

(** Multiplication of two blocks in GF(2^128). *)
Definition mul (x y : Z) : Z := mul_loop 128 x y 0.

Definition pad16 (l : list Z) : list Z :=
  l ++ repeat 0 (Z.to_nat ((- Z.of_nat (List.length l)) mod 16)).

Definition ghash (H : Z) (data : list Z) : Z :=
  fold_left (fun y blk => mul (Z.lxor y (be_to_Z blk)) H) (chunks 16 data) 0.

Definition inc32 (cb : Z) : Z :=
  Z.lor (Z.shiftl (Z.shiftr cb 32) 32) (Z.land (Z.land cb 0xFFFFFFFF + 1) 0xFFFFFFFF).

Section WithKey.

Variable rks : list (list Z).

Definition E (blk : Z) : Z := be_to_Z (AES.encrypt_block rks (Z_to_be 16 blk)).

Fixpoint gctr_blocks (cb : Z) (blocks : list (list Z)) : list Z :=
  match blocks with
  | [] => []
  | blk :: more =>
    AES.xor_list blk (Z_to_be 16 (E cb)) ++ gctr_blocks (inc32 cb) more
  end.

Definition gctr (icb : Z) (data : list Z) : list Z :=
  gctr_blocks icb (chunks 16 data).

Definition hash_subkey : Z := E 0.

Definition J0 (iv : list Z) : Z :=
  if (List.length iv =? 12)%nat then Z.lor (Z.shiftl (be_to_Z iv) 32) 1
  else ghash hash_subkey
         (pad16 iv ++ repeat 0 8 ++ Z_to_be 8 (8 * Z.of_nat (List.length iv))).

Definition tag (iv aad ct : list Z) : list Z :=
  let s := ghash hash_subkey
             (pad16 aad ++ pad16 ct
              ++ Z_to_be 8 (8 * Z.of_nat (List.length aad))
              ++ Z_to_be 8 (8 * Z.of_nat (List.length ct))) in
  gctr (J0 iv) (Z_to_be 16 s).

Definition decrypt_body (iv ct : list Z) : list Z := gctr (inc32 (J0 iv)) ct.

End WithKey.

End GCM.

(** ** [cryptography]'s [AESGCM] *)

Definition bytes_eqb (a b : bytes) : bool :=
  (List.length a =? List.length b)%nat
  && forallb (fun p => Byte.eqb (fst p) (snd p)) (combine a b).

(** [AESGCM(key)]: the constructor only validates the key length. *)
Definition AESGCM (key : bytes) : result bytes :=
  let n := List.length key in
  if (n =? 16)%nat || (n =? 24)%nat || (n =? 32)%nat then Ok key
  else Raise (mkExn ValueError (py "AESGCM key must be 128, 192, or 256 bits.")).

(** [aesgcm.decrypt(nonce, data, associated_data)]: [data] is the ciphertext
    followed by the 16-byte tag.  The nonce length is validated first; data
    shorter than a tag, or a tag that does not verify, raises [InvalidTag],
    whose [str()] is empty. *)
Definition AESGCM_decrypt (key nonce data : bytes) (associated_data : option bytes)
  : result bytes :=
  let aad := match associated_data with Some a => a | None => [] end in
  let n := List.length nonce in
  if (n <? 8)%nat || (128 <? n)%nat then
    Raise (mkExn ValueError (py "Nonce must be between 8 and 128 bytes"))
  else if (List.length data <? 16)%nat then Raise (mkExn InvalidTag [])
  else
    let ct := firstn (List.length data - 16) data in
    let tg := skipn (List.length data - 16) data in
    let rks := AES.key_schedule (Zs_of_bytes key) in
    let iv := Zs_of_bytes nonce in
    if bytes_eqb (bytes_of_Zs (GCM.tag rks iv (Zs_of_bytes aad) (Zs_of_bytes ct))) tg
    then Ok (bytes_of_Zs (GCM.decrypt_body rks iv (Zs_of_bytes ct)))
    else Raise (mkExn InvalidTag []).

(** * The script *)

(** ** Terminal output *)




(** ** Key derivation and password verification *)

(** [derive_key_from_password(password, salt_b64)] *)
Definition derive_key_from_password (password : pystr) (salt_b64 : pyvalue)
  : result bytes :=
  salt_bytes <- b64decode salt_b64 ;;
  key_material <- utf8_encode password ;;
  Ok (PBKDF2HMAC_SHA256_derive 32 salt_bytes 1000000 key_material).

(** [verify_password(password, salt_b64, expected_hash_b64)] *)
Definition verify_password (password : pystr) (salt_b64 expected_hash_b64 : pyvalue)
  : result bool :=
  try_except
    (derived_key <- derive_key_from_password password salt_b64 ;;
     expected_key <- b64decode expected_hash_b64 ;;
     Ok (bytes_eqb derived_key expected_key))
    (fun _ => Ok false).

(** ** Decryption of one value *)

(** The slice [l[start:stop]] for non-negative bounds. *)
Definition py_slice {A : Type} (l : list A) (start stop : nat) : list A :=
  firstn (stop - start) (skipn start l).

(** [decrypt_value(ciphertext_b64, key, tag_size)] *)
Definition decrypt_value (ciphertext_b64 : pyvalue) (key : bytes) (tag_size : nat)
  : result pystr :=
  try_except
    (encrypted_data <- b64decode ciphertext_b64 ;;
     let nonce_size := 12%nat in
     let nonce := firstn nonce_size encrypted_data in
     let tag := py_slice encrypted_data nonce_size (nonce_size + tag_size) in
     let ciphertext := skipn (nonce_size + tag_size) encrypted_data in
     let ciphertext_with_tag := ciphertext ++ tag in
     aesgcm <- AESGCM key ;;
     plaintext <- AESGCM_decrypt aesgcm nonce ciphertext_with_tag None ;;
     utf8_decode plaintext)
    (fun e => Raise (mkExn ValueError (py "Decryption failed: " ++ exn_text e))).

(** The default [tag_size=16] with which [main] calls [decrypt_value]. *)
Definition default_tag_size : nat := 16.

(** ** The decryption loop of [main] *)

















(** ** The whole of [main] and the script entry point *)









(** * Vocabulary of the statements *)

Definition below (n : nat) : list Z := map Z.of_nat (seq 0 n).

(** The byte of an encoded character. *)
Definition b64_byte (c : N) : byte := byte_of_Z (Z.of_N c).

Definition in_sextet (v : Z) : bool := (0 <=? v) && (v <? 64).

(** The bytes of an ASCII literal. *)
Definition ascii_bytes (s : string) : bytes := map b64_byte (py s).

Definition example_key : bytes :=
  bytes_of_Zs (unhex "feffe9928665731c6d6a8f9467308308feffe9928665731c6d6a8f9467308308").

Definition example_blob : pystr :=
  py "yv66vvrO263eyviIGmmQ94PydFV8S2/tNVbNQO9+3qUAoQiVPlRaW/ZCB5WH6Q==".

Definition example_data : bytes :=
  bytes_of_Zs (unhex "cafebabefacedbaddecaf8881a6990f783f274557c4b6fed3556cd40ef7edea500a108953e545a5bf642079587e9").







(** The characters [base64.b64decode] looks at: the alphabet and [=]. *)
Definition b64_significant (c : N) : bool :=
  (c =? 61)%N || (table_a2b_base64 (Z.of_N c) <? 64).

Definition is_ascii (s : pystr) : bool := forallb (fun c => (c <? 128)%N) s.

(** The key lengths [AESGCM] accepts. *)
Definition aes_key_length_ok (key : bytes) : bool :=
  (List.length key =? 16)%nat || (List.length key =? 24)%nat
  || (List.length key =? 32)%nat.


(** An environment in which the stored hash is the key of the password
    [correct-horse] under twelve zero bytes of salt. *)
Abbreviation example_derived_key :=
  (PBKDF2HMAC_SHA256_derive 32 (repeat x00 12) 1000000 (ascii_bytes "correct-horse")).



(** A code point that can occur in encoded text: a Unicode scalar value. *)
Definition is_scalar_value (c : N) : bool :=
  (c <? 0x110000)%N && negb (is_surrogate c).

(** The sealing side, as the docstrings document it (lines 31-35 and
    119-131): the UTF-8 bytes of the plaintext are encrypted with AES-GCM
    under [key] and [nonce], with a 16-byte tag and no associated data, and
    stored as Base64 of nonce, tag and ciphertext in that order. *)
Definition seal_value (plaintext : pystr) (key nonce : bytes) : result pystr :=
  data <- utf8_encode plaintext ;;
  let rks := AES.key_schedule (Zs_of_bytes key) in
  let iv := Zs_of_bytes nonce in
  let ciphertext := bytes_of_Zs (GCM.decrypt_body rks iv (Zs_of_bytes data)) in
  let tag := bytes_of_Zs (GCM.tag rks iv [] (Zs_of_bytes ciphertext)) in
  Ok (b64encode (nonce ++ tag ++ ciphertext)).


(** [example_blob] with the first byte of its tag changed. *)
Definition example_blob_altered_tag : pystr :=
  py "yv66vvrO263eyviIG2mQ94PydFV8S2/tNVbNQO9+3qUAoQiVPlRaW/ZCB5WH6Q==".

Definition example_data_altered_tag : bytes :=
  bytes_of_Zs (unhex "cafebabefacedbaddecaf8881b6990f783f274557c4b6fed3556cd40ef7edea500a108953e545a5bf642079587e9").

(** * Properties *)

(** ** Bytes and integers *)

Lemma Ok_inj {A : Type} (a b : A) : Ok a = Ok b -> a = b.
Proof. intros H. injection H as H. exact H. Qed.

Lemma Z_of_byte_range (b : byte) : 0 <= Z_of_byte b < 256.
Proof.
  unfold Z_of_byte. pose proof (Byte.to_N_bounded b). lia.
Qed.

Lemma byte_of_Z_of_byte (b : byte) : byte_of_Z (Z_of_byte b) = b.
Proof.
  unfold byte_of_Z. pose proof (Z_of_byte_range b) as Hr.
  rewrite Z.mod_small by exact Hr.
  unfold Z_of_byte. rewrite N2Z.id, Byte.of_to_N. reflexivity.
Qed.

Lemma Z_of_byte_of_Z (z : Z) : Z_of_byte (byte_of_Z z) = z mod 256.
Proof.
  unfold byte_of_Z, Z_of_byte.
  pose proof (Z.mod_pos_bound z 256 ltac:(lia)) as Hm.
  destruct (Byte.of_N (Z.to_N (z mod 256))) as [b|] eqn:E.
  - apply Byte.to_of_N in E. rewrite E. lia.
  - apply Byte.of_N_None_iff in E. lia.
Qed.

Lemma bytes_eqb_refl (a : bytes) : bytes_eqb a a = true.
Proof.
  unfold bytes_eqb. rewrite Nat.eqb_refl. simpl.
  induction a as [|x a IH]; simpl; [reflexivity|].
  rewrite IH, andb_true_r. apply Byte.byte_dec_lb. reflexivity.
Qed.

Lemma bytes_eqb_eq (a b : bytes) : bytes_eqb a b = true <-> a = b.
Proof.
  split; [|intros ->; apply bytes_eqb_refl].
  unfold bytes_eqb. revert b.
  induction a as [|x a IH]; intros [|y b]; simpl; try discriminate; auto.
  rewrite !andb_true_iff. intros [Hl [Hxy Hrest]].
  apply Byte.byte_dec_bl in Hxy. subst y. f_equal.
  apply IH. rewrite Hl. exact Hrest.
Qed.

Lemma Z_to_be_length (n : nat) (z : Z) : List.length (Z_to_be n z) = n.
Proof.
  revert z. induction n as [|n IH]; intros z; simpl; [reflexivity|].
  rewrite length_app, IH. simpl. lia.
Qed.

Lemma xor_bytes_length (a b : bytes) :
  List.length (xor_bytes a b) = Nat.min (List.length a) (List.length b).
Proof.
  unfold xor_bytes. rewrite length_map, length_combine. reflexivity.
Qed.

(** ** Output lengths of the hash, the MAC and the key-derivation function *)

Lemma sha256_length (msg : bytes) : List.length (SHA256.sha256 msg) = 32%nat.
Proof.
  unfold SHA256.sha256, bytes_of_Zs. rewrite length_map.
  destruct (fold_left SHA256.compress _ SHA256.H0)
    as [[[[[[[a b] c] d] e] f] g] h].
  unfold SHA256.digest_of. rewrite !length_app, !Z_to_be_length. reflexivity.
Qed.

Lemma hmac_sha256_length (key msg : bytes) :
  List.length (hmac_sha256 key msg) = 32%nat.
Proof.
  unfold hmac_sha256. apply sha256_length.
Qed.

Section PBKDF2_length.

Variable prf : bytes -> bytes -> bytes.
Variable hLen : nat.
Hypothesis prf_length : forall k m, List.length (prf k m) = hLen.

Lemma pbkdf2_F_length (P S : bytes) (c : N) (i : Z) :
  List.length (pbkdf2_F prf P S c i) = hLen.
Proof.
  unfold pbkdf2_F.
  set (step := fun st : bytes * bytes =>
                 let u := prf P (snd st) in (xor_bytes (fst st) u, u)).
  set (U1 := prf P (S ++ bytes_of_Zs (Z_to_be 4 i))).
  assert (Hinv : List.length (fst (N.iter (c - 1) step (U1, U1))) = hLen
                 /\ List.length (snd (N.iter (c - 1) step (U1, U1))) = hLen).
  { apply N.iter_invariant.
    - intros [acc u] [Hacc Hu]. unfold step. cbn [fst snd] in *. split.
      + rewrite xor_bytes_length, Hacc, prf_length. apply Nat.min_id.
      + apply prf_length.
    - cbn [fst snd]. split; apply prf_length. }
  exact (proj1 Hinv).
Qed.

Lemma flat_map_const_length {X : Type} (f : X -> bytes) (l : list X) :
  (forall x, List.length (f x) = hLen) ->
  List.length (flat_map f l) = (List.length l * hLen)%nat.
Proof.
  intros Hf. induction l as [|x l IH]; simpl; [reflexivity|].
  rewrite length_app, Hf, IH. reflexivity.
Qed.

Lemma pbkdf2_length (P S : bytes) (c : N) (dkLen : nat) :
  (0 < hLen)%nat -> List.length (pbkdf2 prf hLen P S c dkLen) = dkLen.
Proof.
  intros Hpos. unfold pbkdf2.
  rewrite length_firstn, flat_map_const_length
    by (intros; apply pbkdf2_F_length).
  rewrite length_seq. apply Nat.min_l.
  pose proof (Nat.div_mod_eq (dkLen + hLen - 1) hLen) as Hdm.
  pose proof (Nat.mod_upper_bound (dkLen + hLen - 1) hLen ltac:(lia)) as Hub.
  nia.
Qed.

End PBKDF2_length.

Lemma PBKDF2HMAC_SHA256_derive_length (n : nat) (salt : bytes) (c : N) (km : bytes) :
  List.length (PBKDF2HMAC_SHA256_derive n salt c km) = n.
Proof.
  unfold PBKDF2HMAC_SHA256_derive.
  apply (pbkdf2_length hmac_sha256 32 hmac_sha256_length). lia.
Qed.

Lemma PBKDF2HMAC_SHA256_derive_unfold (n : nat) (salt : bytes) (c : N) (km : bytes) :
  PBKDF2HMAC_SHA256_derive n salt c km = pbkdf2 hmac_sha256 32 km salt c n.
Proof. reflexivity. Qed.

(** With a 32-byte request the derived key is the single block [T_1]. *)
Lemma PBKDF2HMAC_SHA256_derive_32 (salt : bytes) (c : N) (km : bytes) :
  PBKDF2HMAC_SHA256_derive 32 salt c km = pbkdf2_F hmac_sha256 km salt c 1.
Proof.
  unfold PBKDF2HMAC_SHA256_derive, pbkdf2.
  change ((32 + 32 - 1) / 32)%nat with 1%nat.
  cbn [seq flat_map]. rewrite app_nil_r.
  apply firstn_all2.
  rewrite (pbkdf2_F_length hmac_sha256 32 hmac_sha256_length). lia.
Qed.

(** ** Base64: decoding inverts encoding *)

Lemma list_ind3 {A : Type} (P : list A -> Prop) :
  P [] -> (forall a, P [a]) -> (forall a b, P [a; b]) ->
  (forall a b c l, P l -> P (a :: b :: c :: l)) ->
  forall l, P l.
Proof.
  intros H0 H1 H2 H3 l.
  assert (H : P l /\ (forall a, P (a :: l)) /\ (forall a b, P (a :: b :: l))).
  { induction l as [|x l [IH0 [IH1 IH2]]].
    - auto.
    - repeat split; auto. }
  exact (proj1 H).
Qed.

Lemma forall_below (n : nat) (P : Z -> bool) :
  forallb P (below n) = true -> forall z, 0 <= z < Z.of_nat n -> P z = true.
Proof.
  intros H z Hz. rewrite forallb_forall in H. apply H.
  unfold below. apply in_map_iff. exists (Z.to_nat z).
  split; [lia | apply in_seq; lia].
Qed.

Lemma forall_below2 (n : nat) (P : Z -> Z -> bool) :
  forallb (fun a => forallb (P a) (below n)) (below n) = true ->
  forall a b, 0 <= a < Z.of_nat n -> 0 <= b < Z.of_nat n -> P a b = true.
Proof.
  intros H a b Ha Hb.
  pose proof (forall_below n _ H a Ha) as Hrow. cbv beta in Hrow.
  exact (forall_below n _ Hrow b Hb).
Qed.

Lemma b64_alphabet_ascii (v : Z) : (b64_alphabet v <? 128)%N = true.
Proof.
  apply N.ltb_lt. unfold b64_alphabet.
  destruct (v <? 26) eqn:E1; [apply Z.ltb_lt in E1; lia|].
  destruct (v <? 52) eqn:E2; [apply Z.ltb_lt in E2; lia|].
  destruct (v <? 62) eqn:E3; [apply Z.ltb_lt in E3; lia|].
  destruct (v =? 62); lia.
Qed.

Lemma b64encode_ascii (data : bytes) :
  forallb (fun c => (c <? 128)%N) (b64encode data) = true.
Proof.
  induction data as [| a | a b | a b c l IH] using list_ind3;
    cbn [b64encode forallb]; rewrite ?b64_alphabet_ascii, ?IH; reflexivity.
Qed.

Lemma b64_char_decodes (v : Z) :
  0 <= v < 64 ->
  (Z_of_byte (b64_byte (b64_alphabet v)) =? BASE64_PAD) = false
  /\ table_a2b_base64 (Z_of_byte (b64_byte (b64_alphabet v))) = v.
Proof.
  intros Hv.
  pose proof (forall_below 64
    (fun v => negb (Z_of_byte (b64_byte (b64_alphabet v)) =? BASE64_PAD)
              && (table_a2b_base64 (Z_of_byte (b64_byte (b64_alphabet v))) =? v))
    ltac:(vm_compute; reflexivity) v Hv) as H.
  cbv beta in H. apply andb_true_iff in H. destruct H as [Hp Ht].
  split; [apply negb_true_iff in Hp; exact Hp | apply Z.eqb_eq; exact Ht].
Qed.

(** One step of the decoder on an alphabet character. *)
Lemma a2b_base64_loop_char (v : Z) (rest : bytes) (q l p : Z) (out : bytes) :
  0 <= v < 64 ->
  a2b_base64_loop (b64_byte (b64_alphabet v) :: rest) q l p out =
  if q =? 0 then a2b_base64_loop rest 1 v 0 out
  else if q =? 1 then
    a2b_base64_loop rest 2 (Z.land v 0x0f) 0
      (out ++ [byte_of_Z (Z.lor (Z.shiftl l 2) (Z.shiftr v 4))])
  else if q =? 2 then
    a2b_base64_loop rest 3 (Z.land v 0x03) 0
      (out ++ [byte_of_Z (Z.lor (Z.shiftl l 4) (Z.shiftr v 2))])
  else
    a2b_base64_loop rest 0 0 0 (out ++ [byte_of_Z (Z.lor (Z.shiftl l 6) v)]).
Proof.
  intros Hv. destruct (b64_char_decodes v Hv) as [Hpad Htab].
  cbn [a2b_base64_loop]. cbv zeta. rewrite Hpad, Htab.
  replace (64 <=? v) with false by (symmetry; apply Z.leb_gt; lia).
  reflexivity.
Qed.

(** One step of the decoder on the pad character. *)
Lemma a2b_base64_loop_pad (rest : bytes) (q l p : Z) (out : bytes) :
  a2b_base64_loop (b64_byte 61 :: rest) q l p out =
  if 2 <=? q then
    if 4 <=? q + (p + 1) then Ok out
    else a2b_base64_loop rest q l (p + 1) out
  else a2b_base64_loop rest q l p out.
Proof. reflexivity. Qed.

Lemma in_sextet_range (v : Z) : in_sextet v = true -> 0 <= v < 64.
Proof. unfold in_sextet. intros H. apply andb_true_iff in H. lia. Qed.

(** The arithmetic of regrouping, checked for every pair of byte values. *)
Lemma sextets_regroup (x y : Z) :
  0 <= x < 256 -> 0 <= y < 256 ->
  (0 <= sextet1 x < 64)
  /\ (0 <= sextet2 x y < 64)
  /\ (0 <= sextet3 x y < 64)
  /\ (0 <= sextet4 x < 64)
  /\ Z.lor (Z.shiftl (sextet1 x) 2) (Z.shiftr (sextet2 x y) 4) = x
  /\ Z.land (sextet2 x y) 15 = Z.shiftr y 4
  /\ Z.shiftr (sextet3 x y) 2 = Z.land x 15
  /\ Z.lor (Z.shiftl (Z.shiftr x 4) 4) (Z.land x 15) = x
  /\ Z.lor (Z.shiftl (Z.land (sextet3 x y) 3) 6) (sextet4 y) = y.
Proof.
  intros Hx Hy.
  pose proof (forall_below2 256
    (fun x y =>
       in_sextet (sextet1 x) && in_sextet (sextet2 x y)
       && in_sextet (sextet3 x y) && in_sextet (sextet4 x)
       && (Z.lor (Z.shiftl (sextet1 x) 2) (Z.shiftr (sextet2 x y) 4) =? x)
       && (Z.land (sextet2 x y) 15 =? Z.shiftr y 4)
       && (Z.shiftr (sextet3 x y) 2 =? Z.land x 15)
       && (Z.lor (Z.shiftl (Z.shiftr x 4) 4) (Z.land x 15) =? x)
       && (Z.lor (Z.shiftl (Z.land (sextet3 x y) 3) 6) (sextet4 y) =? y))
    ltac:(vm_compute; reflexivity) x y Hx Hy) as H.
  cbv beta in H. rewrite !andb_true_iff, !Z.eqb_eq in H.
  destruct H as [[[[[[[[H1 H2] H3] H4] H5] H6] H7] H8] H9].
  repeat split; try assumption; apply in_sextet_range; assumption.
Qed.

Lemma zero_is_byte : 0 <= 0 < 256.
Proof. lia. Qed.

Section Base64_steps.

Variables (rest out : bytes) (l p : Z).

Lemma loop_char0 v : 0 <= v < 64 ->
  a2b_base64_loop (b64_byte (b64_alphabet v) :: rest) 0 l p out
  = a2b_base64_loop rest 1 v 0 out.
Proof. intros Hv. rewrite a2b_base64_loop_char by exact Hv. reflexivity. Qed.

Lemma loop_char1 v : 0 <= v < 64 ->
  a2b_base64_loop (b64_byte (b64_alphabet v) :: rest) 1 l p out
  = a2b_base64_loop rest 2 (Z.land v 15) 0
      (out ++ [byte_of_Z (Z.lor (Z.shiftl l 2) (Z.shiftr v 4))]).
Proof. intros Hv. rewrite a2b_base64_loop_char by exact Hv. reflexivity. Qed.

Lemma loop_char2 v : 0 <= v < 64 ->
  a2b_base64_loop (b64_byte (b64_alphabet v) :: rest) 2 l p out
  = a2b_base64_loop rest 3 (Z.land v 3) 0
      (out ++ [byte_of_Z (Z.lor (Z.shiftl l 4) (Z.shiftr v 2))]).
Proof. intros Hv. rewrite a2b_base64_loop_char by exact Hv. reflexivity. Qed.

Lemma loop_char3 v : 0 <= v < 64 ->
  a2b_base64_loop (b64_byte (b64_alphabet v) :: rest) 3 l p out
  = a2b_base64_loop rest 0 0 0 (out ++ [byte_of_Z (Z.lor (Z.shiftl l 6) v)]).
Proof. intros Hv. rewrite a2b_base64_loop_char by exact Hv. reflexivity. Qed.

End Base64_steps.

(** Decoding the encoding of [data] appends [data] to the output, whatever
    came before. *)
Lemma a2b_base64_loop_b64encode (data : bytes) :
  forall pads out,
    a2b_base64_loop (map b64_byte (b64encode data)) 0 0 pads out = Ok (out ++ data).
Proof.
  induction data as [| a | a b | a b c data IH] using list_ind3; intros pads out.
  - cbn. rewrite app_nil_r. reflexivity.
  - pose proof (Z_of_byte_range a) as Ha.
    destruct (sextets_regroup _ _ Ha zero_is_byte)
      as (R1 & R2 & _ & _ & E1 & _).
    cbn [b64encode map].
    rewrite loop_char0 by exact R1. rewrite loop_char1 by exact R2.
    rewrite E1, byte_of_Z_of_byte. reflexivity.
  - pose proof (Z_of_byte_range a) as Ha. pose proof (Z_of_byte_range b) as Hb.
    destruct (sextets_regroup _ _ Ha Hb) as (R1 & R2 & _ & _ & E1 & E2 & _).
    destruct (sextets_regroup _ _ Hb zero_is_byte)
      as (_ & _ & R3 & _ & _ & _ & E3 & E4 & _).
    cbn [b64encode map].
    rewrite loop_char0 by exact R1. rewrite loop_char1 by exact R2.
    rewrite loop_char2 by exact R3.
    rewrite E1, E2, E3, E4, !byte_of_Z_of_byte.
    rewrite a2b_base64_loop_pad. cbn. rewrite <- app_assoc. reflexivity.
  - pose proof (Z_of_byte_range a) as Ha. pose proof (Z_of_byte_range b) as Hb.
    pose proof (Z_of_byte_range c) as Hc.
    destruct (sextets_regroup _ _ Ha Hb) as (R1 & R2 & _ & _ & E1 & E2 & _).
    destruct (sextets_regroup _ _ Hb Hc) as (_ & _ & R3 & _ & _ & _ & E3 & E4 & E5).
    destruct (sextets_regroup _ _ Hc Hc) as (_ & _ & _ & R4 & _).
    cbn [b64encode map].
    rewrite loop_char0 by exact R1. rewrite loop_char1 by exact R2.
    rewrite loop_char2 by exact R3. rewrite loop_char3 by exact R4.
    rewrite E1, E2, E3, E4, E5, !byte_of_Z_of_byte.
    rewrite IH. rewrite <- !app_assoc. reflexivity.
Qed.

Lemma ascii_encode_b64encode (data : bytes) :
  ascii_encode (b64encode data) = Some (map b64_byte (b64encode data)).
Proof.
  unfold ascii_encode. rewrite b64encode_ascii. reflexivity.
Qed.

(** [base64.b64decode] inverts the standard encoding on every byte string. *)
Lemma b64decode_b64encode (data : bytes) :
  b64decode (PyStr (b64encode data)) = Ok data.
Proof.
  unfold b64decode, bytes_from_decode_data.
  rewrite ascii_encode_b64encode. cbn [bind]. unfold a2b_base64.
  apply a2b_base64_loop_b64encode.
Qed.

(** ** Key derivation *)

Lemma derive_key_from_password_ok password salt_b64 salt_bytes key_material :
  b64decode salt_b64 = Ok salt_bytes ->
  utf8_encode password = Ok key_material ->
  derive_key_from_password password salt_b64
  = Ok (PBKDF2HMAC_SHA256_derive 32 salt_bytes 1000000 key_material).
Proof.
  intros Hsalt Hpw. unfold derive_key_from_password.
  rewrite Hsalt. cbn [bind]. rewrite Hpw. reflexivity.
Qed.

(** The encoder fails exactly on strings that contain a surrogate. *)
Lemma utf8_encode_from_ok (s : pystr) :
  forall pos,
    (exists b, utf8_encode_from pos s = Ok b)
    <-> forallb (fun c => negb (is_surrogate c)) s = true.
Proof.
  induction s as [|c r IH]; intros pos.
  - cbn. split; [reflexivity | intros _; eexists; reflexivity].
  - cbn [utf8_encode_from forallb]. cbv zeta.
    destruct (is_surrogate c) eqn:Hc; cbn [negb andb].
    + split; [intros [b Hb]; discriminate | discriminate].
    + specialize (IH (pos + 1)%N). rewrite <- IH.
      destruct (utf8_encode_from (pos + 1) r) as [tl|e]; cbn [bind].
      * split; intros _; eexists; reflexivity.
      * split; intros [b Hb]; discriminate.
Qed.

Lemma utf8_encode_ok (s : pystr) :
  (exists b, utf8_encode s = Ok b)
  <-> forallb (fun c => negb (is_surrogate c)) s = true.
Proof. apply utf8_encode_from_ok. Qed.

(** C1.  Whenever the salt text decodes and the password encodes, the derived
    key is PBKDF2 (RFC 8018) with HMAC-SHA-256 as the pseudorandom function,
    applied to the UTF-8 bytes of the password and the decoded salt with
    1,000,000 iterations and a requested length of 32 bytes; that key is
    exactly 32 bytes long, and any result of the same call is this key. *)
Theorem derive_key_is_pbkdf2_hmac_sha256
  (password salt_b64 : pystr) (salt_bytes key_material : bytes) :
  b64decode (PyStr salt_b64) = Ok salt_bytes ->
  utf8_encode password = Ok key_material ->
  derive_key_from_password password (PyStr salt_b64)
  = Ok (pbkdf2 hmac_sha256 32 key_material salt_bytes 1000000 32)
  /\ List.length (pbkdf2 hmac_sha256 32 key_material salt_bytes 1000000 32) = 32%nat
  /\ (forall key,
        derive_key_from_password password (PyStr salt_b64) = Ok key ->
        key = pbkdf2 hmac_sha256 32 key_material salt_bytes 1000000 32).
Proof.
  intros Hsalt Hpw.
  rewrite <- !PBKDF2HMAC_SHA256_derive_unfold.
  pose proof (derive_key_from_password_ok _ _ _ _ Hsalt Hpw) as Hkey.
  split; [exact Hkey|]. split; [apply PBKDF2HMAC_SHA256_derive_length|].
  intros key Hk. rewrite Hkey in Hk. symmetry. exact (Ok_inj _ _ Hk).
Qed.

Lemma derive_key_is_pbkdf2_hmac_sha256_witness :
  derive_key_from_password (py "correct-horse") (PyStr (py "AAAAAAAAAAAAAAAA"))
  = Ok (pbkdf2 hmac_sha256 32 (ascii_bytes "correct-horse") (repeat x00 12) 1000000 32).
Proof.
  refine (proj1 (derive_key_is_pbkdf2_hmac_sha256
                   (py "correct-horse") (py "AAAAAAAAAAAAAAAA")
                   (repeat x00 12) (ascii_bytes "correct-horse") _ _));
    vm_compute; reflexivity.
Defined.

(** C5, as stated, fails: a salt that decodes to sixteen bytes is accepted. *)
Lemma derive_rejects_wrong_salt_length_counterexample :
  ~ (forall password salt_b64 salt_bytes,
        b64decode (PyStr salt_b64) = Ok salt_bytes ->
        List.length salt_bytes <> 12%nat ->
        exists e, derive_key_from_password password (PyStr salt_b64) = Raise e).
Proof.
  intros H.
  destruct (H (py "pw") (py "AAAAAAAAAAAAAAAAAAAAAA==") (repeat x00 16))
    as [e He].
  - vm_compute. reflexivity.
  - cbn. lia.
  - rewrite (derive_key_from_password_ok _ _ (repeat x00 16) (ascii_bytes "pw")) in He
      by (vm_compute; reflexivity).
    discriminate.
Qed.

(** C5, amended.  The salt length is never inspected: derivation succeeds,
    with a 32-byte key, exactly when the salt value decodes as Base64 (to any
    number of bytes) and the password contains no surrogate code point. *)
Theorem derive_key_error_conditions (password : pystr) (salt_b64 : pyvalue) :
  (exists key, derive_key_from_password password salt_b64 = Ok key
               /\ List.length key = 32%nat)
  <-> ((exists salt_bytes, b64decode salt_b64 = Ok salt_bytes)
       /\ forallb (fun c => negb (is_surrogate c)) password = true).
Proof.
  rewrite <- utf8_encode_ok. split.
  - intros [key [Hk _]]. unfold derive_key_from_password in Hk.
    destruct (b64decode salt_b64) as [s|e]; cbn [bind] in Hk; [|discriminate].
    destruct (utf8_encode password) as [p|e]; cbn [bind] in Hk; [|discriminate].
    split; eexists; reflexivity.
  - intros [[s Hs] [p Hp]].
    exists (PBKDF2HMAC_SHA256_derive 32 s 1000000 p). split.
    + apply derive_key_from_password_ok; assumption.
    + apply PBKDF2HMAC_SHA256_derive_length.
Qed.

(** ** Password verification *)

(** C4.  [verify_password] always returns a boolean: the comparison of the
    two keys when both the derivation and the decoding of the stored hash
    succeed, and [False] whenever either of them raises. *)
Theorem verify_password_never_raises
  (password : pystr) (salt_b64 expected_hash_b64 : pyvalue) :
  verify_password password salt_b64 expected_hash_b64
  = Ok (match derive_key_from_password password salt_b64,
              b64decode expected_hash_b64 with
        | Ok derived_key, Ok expected_key => bytes_eqb derived_key expected_key
        | _, _ => false
        end).
Proof.
  unfold verify_password.
  destruct (derive_key_from_password password salt_b64) as [k|e];
    cbn [bind try_except]; [|reflexivity].
  destruct (b64decode expected_hash_b64) as [h|e]; reflexivity.
Qed.

(** C7.  A password verifies against the Base64 encoding of the key derived
    from it with the same salt. *)
Theorem verify_password_accepts_own_key
  (password : pystr) (salt_b64 : pyvalue) (key : bytes) :
  derive_key_from_password password salt_b64 = Ok key ->
  verify_password password salt_b64 (PyStr (b64encode key)) = Ok true.
Proof.
  intros Hkey. unfold verify_password. rewrite Hkey. cbn [bind].
  rewrite b64decode_b64encode. cbn [bind try_except].
  rewrite bytes_eqb_refl. reflexivity.
Qed.

Lemma verify_password_accepts_own_key_witness :
  verify_password (py "correct-horse") (PyStr (py "AAAAAAAAAAAAAAAA"))
    (PyStr (b64encode (PBKDF2HMAC_SHA256_derive 32 (repeat x00 12) 1000000
                         (ascii_bytes "correct-horse"))))
  = Ok true.
Proof.
  apply (verify_password_accepts_own_key
           (py "correct-horse") (PyStr (py "AAAAAAAAAAAAAAAA"))).
  reflexivity.
Defined.

(** ** The AEAD primitive on short and on well-formed input *)

Lemma firstn_length_app {A : Type} (l1 l2 : list A) :
  firstn (List.length l1) (l1 ++ l2) = l1.
Proof. induction l1 as [|x l1 IH]; cbn; [reflexivity | rewrite IH; reflexivity]. Qed.

Lemma skipn_length_app {A : Type} (l1 l2 : list A) :
  skipn (List.length l1) (l1 ++ l2) = l2.
Proof. induction l1 as [|x l1 IH]; cbn; [reflexivity | exact IH]. Qed.

Lemma AESGCM_decrypt_short_nonce key nonce data aad :
  (List.length nonce < 8)%nat ->
  AESGCM_decrypt key nonce data aad
  = Raise (mkExn ValueError (py "Nonce must be between 8 and 128 bytes")).
Proof.
  intros H. unfold AESGCM_decrypt. cbv zeta.
  replace (List.length nonce <? 8)%nat with true
    by (symmetry; apply Nat.ltb_lt; exact H).
  reflexivity.
Qed.

Lemma AESGCM_decrypt_short_data key nonce data aad :
  (8 <= List.length nonce <= 128)%nat ->
  (List.length data < 16)%nat ->
  AESGCM_decrypt key nonce data aad = Raise (mkExn InvalidTag []).
Proof.
  intros Hn Hd. unfold AESGCM_decrypt. cbv zeta.
  replace (List.length nonce <? 8)%nat with false
    by (symmetry; apply Nat.ltb_ge; lia).
  replace (128 <? List.length nonce)%nat with false
    by (symmetry; apply Nat.ltb_ge; lia).
  replace (List.length data <? 16)%nat with true
    by (symmetry; apply Nat.ltb_lt; exact Hd).
  reflexivity.
Qed.

(** On a nonce of legal length and data made of a ciphertext followed by a
    16-byte tag, decryption recomputes the GCM tag over the ciphertext with
    empty associated data and releases the plaintext only if it matches. *)
Lemma AESGCM_decrypt_tagged key nonce ciphertext tag :
  (8 <= List.length nonce <= 128)%nat ->
  List.length tag = 16%nat ->
  AESGCM_decrypt key nonce (ciphertext ++ tag) None
  = if bytes_eqb
         (bytes_of_Zs (GCM.tag (AES.key_schedule (Zs_of_bytes key))
                               (Zs_of_bytes nonce) [] (Zs_of_bytes ciphertext)))
         tag
    then Ok (bytes_of_Zs (GCM.decrypt_body (AES.key_schedule (Zs_of_bytes key))
                                           (Zs_of_bytes nonce) (Zs_of_bytes ciphertext)))
    else Raise (mkExn InvalidTag []).
Proof.
  intros Hn Ht. unfold AESGCM_decrypt. cbv zeta.
  replace (List.length nonce <? 8)%nat with false
    by (symmetry; apply Nat.ltb_ge; lia).
  replace (128 <? List.length nonce)%nat with false
    by (symmetry; apply Nat.ltb_ge; lia).
  replace (List.length (ciphertext ++ tag) <? 16)%nat with false
    by (symmetry; apply Nat.ltb_ge; rewrite length_app; lia).
  replace (List.length (ciphertext ++ tag) - 16)%nat with (List.length ciphertext)
    by (rewrite length_app; lia).
  rewrite firstn_length_app, skipn_length_app. reflexivity.
Qed.

(** ** AES-256 runs fourteen rounds *)

Lemma chunks_fuel_length {A : Type} (n : nat) :
  (0 < n)%nat ->
  forall (k fuel : nat) (l : list A),
    List.length l = (k * n)%nat -> (k <= fuel)%nat ->
    List.length (chunks_fuel fuel n l) = k.
Proof.
  intros Hn. induction k as [|k IH]; intros fuel l Hl Hk.
  - destruct l; [|discriminate]. destruct fuel; reflexivity.
  - destruct fuel as [|fuel]; [lia|].
    destruct l as [|x l]; [cbn in Hl; lia|].
    cbn [chunks_fuel List.length]. f_equal.
    apply IH; [|lia]. rewrite length_skipn, Hl. cbn. lia.
Qed.

Lemma chunks_length {A : Type} (n k : nat) (l : list A) :
  (0 < n)%nat -> List.length l = (k * n)%nat -> List.length (chunks n l) = k.
Proof.
  intros Hn Hl. unfold chunks. apply chunks_fuel_length; [exact Hn | exact Hl | nia].
Qed.

Lemma expand_length (n Nk : nat) :
  forall i rcon ws,
    List.length (AES.expand n Nk i rcon ws) = (List.length ws + n)%nat.
Proof.
  induction n as [|n IH]; intros i rcon ws; cbn [AES.expand]; [lia|].
  cbv zeta.
  destruct (i mod Nk =? 0)%nat;
    [|destruct ((6 <? Nk)%nat && (i mod Nk =? 4)%nat)];
    rewrite IH, length_app; cbn [List.length]; lia.
Qed.

Lemma key_schedule_256_length (key : list Z) :
  List.length key = 32%nat -> List.length (AES.key_schedule key) = 15%nat.
Proof.
  intros Hk. unfold AES.key_schedule. cbv zeta. rewrite Hk.
  change (32 / 4)%nat with 8%nat. change (4 * (8 + 7) - 8)%nat with 52%nat.
  rewrite length_map. apply chunks_length; [lia|].
  rewrite expand_length, (chunks_length 4 8) by (lia || exact Hk).
  reflexivity.
Qed.

(** ** Decryption of one value *)


(** C2, as stated, fails: the three-byte blob [QUJD] is not reported as a
    truncated ciphertext. *)
Lemma decrypt_value_truncated_counterexample :
  ~ (forall (key : bytes) (blob : pystr) (data : bytes),
        b64decode (PyStr blob) = Ok data ->
        (List.length data < 28)%nat ->
        exists cls,
          decrypt_value (PyStr blob) key default_tag_size
          = Raise (mkExn cls (py "truncated ciphertext"))).
Proof.
  intros H.
  destruct (H (repeat x00 32) (py "QUJD") (ascii_bytes "ABC")) as [cls Hc].
  - vm_compute. reflexivity.
  - cbn. lia.
  - vm_compute in Hc. discriminate.
Qed.

(** C2, amended.  There is no length check of its own: a blob that decodes to
    fewer than 28 bytes always makes [decrypt_value] raise [ValueError], with
    the message [Decryption failed: ] followed by the reason of the first
    library call that rejects it, namely the key length, then a nonce shorter
    than eight bytes, and otherwise the missing tag, whose [InvalidTag] has an
    empty text. *)
Theorem decrypt_value_short_blob_fails (key : bytes) (blob : pystr) (data : bytes) :
  b64decode (PyStr blob) = Ok data ->
  (List.length data < 28)%nat ->
  decrypt_value (PyStr blob) key default_tag_size
  = Raise (mkExn ValueError
             (py "Decryption failed: " ++
              (if negb ((List.length key =? 16)%nat || (List.length key =? 24)%nat
                        || (List.length key =? 32)%nat)
               then py "AESGCM key must be 128, 192, or 256 bits."
               else if (List.length data <? 8)%nat
                    then py "Nonce must be between 8 and 128 bytes"
                    else []))).
Proof.
  intros Hdec Hlen. unfold decrypt_value, default_tag_size.
  rewrite Hdec. cbn [bind]. cbv zeta. unfold AESGCM.
  destruct ((List.length key =? 16)%nat || (List.length key =? 24)%nat
            || (List.length key =? 32)%nat); cbn [negb bind]; [|reflexivity].
  destruct (List.length data <? 8)%nat eqn:Hshort.
  - apply Nat.ltb_lt in Hshort.
    rewrite AESGCM_decrypt_short_nonce by (rewrite length_firstn; lia).
    reflexivity.
  - apply Nat.ltb_ge in Hshort.
    rewrite AESGCM_decrypt_short_data.
    + reflexivity.
    + rewrite length_firstn. lia.
    + unfold py_slice. rewrite length_app, length_skipn, length_firstn, length_skipn.
      lia.
Qed.

Lemma decrypt_value_short_blob_fails_witness :
  decrypt_value (PyStr (py "QUJDQUJDQUJD")) (repeat x00 32) default_tag_size
  = Raise (mkExn ValueError (py "Decryption failed: ")).
Proof.
  rewrite (decrypt_value_short_blob_fails (repeat x00 32) (py "QUJDQUJDQUJD")
             (ascii_bytes "ABCABCABC")).
  - reflexivity.
  - vm_compute. reflexivity.
  - cbn. lia.
Defined.

(** C6.  When the blob decodes to at least 28 bytes, they are split as
    nonce [data[0:12]], tag [data[12:28]] and ciphertext [data[28:]]; the
    value is decrypted by the AEAD primitive under the given key and that
    nonce, applied to the ciphertext followed by the tag, with no associated
    data.  For a 32-byte key this is AES-256 (fifteen round keys) in GCM:
    the tag recomputed over the ciphertext is compared with [data[12:28]]. *)
Theorem decrypt_value_splits_and_decrypts (blob : pystr) (key data : bytes) :
  b64decode (PyStr blob) = Ok data ->
  (28 <= List.length data)%nat ->
  List.length key = 32%nat ->
  let nonce := py_slice data 0 12 in
  let tag := py_slice data 12 28 in
  let ciphertext := skipn 28 data in
  let rks := AES.key_schedule (Zs_of_bytes key) in
  data = nonce ++ tag ++ ciphertext
  /\ List.length nonce = 12%nat
  /\ List.length tag = 16%nat
  /\ List.length rks = 15%nat
  /\ decrypt_value (PyStr blob) key default_tag_size
     = try_except
         (plaintext <- AESGCM_decrypt key nonce (ciphertext ++ tag) None ;;
          utf8_decode plaintext)
         (fun e => Raise (mkExn ValueError (py "Decryption failed: " ++ exn_text e)))
  /\ AESGCM_decrypt key nonce (ciphertext ++ tag) None
     = if bytes_eqb
            (bytes_of_Zs (GCM.tag rks (Zs_of_bytes nonce) [] (Zs_of_bytes ciphertext)))
            tag
       then Ok (bytes_of_Zs (GCM.decrypt_body rks (Zs_of_bytes nonce)
                                              (Zs_of_bytes ciphertext)))
       else Raise (mkExn InvalidTag []).
Proof.
  intros Hdec Hlen Hkey. cbv zeta.
  assert (Hn : List.length (py_slice data 0 12) = 12%nat).
  { unfold py_slice. rewrite length_firstn, length_skipn. lia. }
  assert (Ht : List.length (py_slice data 12 28) = 16%nat).
  { unfold py_slice. rewrite length_firstn, length_skipn. lia. }
  split; [|split; [exact Hn|split; [exact Ht|split]]].
  - unfold py_slice.
    change (28 - 12)%nat with 16%nat. change (12 - 0)%nat with 12%nat.
    change (skipn 0 data) with data.
    replace (skipn 28 data) with (skipn 16 (skipn 12 data))
      by (rewrite skipn_skipn; reflexivity).
    rewrite (firstn_skipn 16 (skipn 12 data)). symmetry. apply firstn_skipn.
  - apply key_schedule_256_length. unfold Zs_of_bytes. rewrite length_map. exact Hkey.
  - split.
    + unfold decrypt_value, default_tag_size. rewrite Hdec. cbn [bind]. cbv zeta.
      unfold AESGCM. rewrite Hkey. cbn [Nat.eqb orb bind].
      reflexivity.
    + apply AESGCM_decrypt_tagged; [rewrite Hn; lia | exact Ht].
Qed.

Lemma decrypt_value_splits_and_decrypts_witness :
  decrypt_value (PyStr example_blob) example_key default_tag_size
  = Ok (py "db-password=s3cret").
Proof.
  destruct (decrypt_value_splits_and_decrypts example_blob example_key example_data)
    as (_ & _ & _ & _ & Hd & Ha).
  - vm_compute. reflexivity.
  - cbn. lia.
  - reflexivity.
  - rewrite Hd, Ha. vm_compute. reflexivity.
Defined.

(** ** The decryption loop *)


Section Loop.

Variable key : bytes.
Variable dir_exists : pystr -> bool.







End Loop.



(** * Further properties of the script *)

(** ** Password verification decides equality with the stored key *)


(** X1.  [verify_password] answers [True] exactly when the key derived from
    the password and salt is, byte for byte, what the stored hash decodes to. *)
Theorem verify_password_true_iff
  (password : pystr) (salt_b64 expected_hash_b64 : pyvalue) :
  verify_password password salt_b64 expected_hash_b64 = Ok true
  <-> exists key,
        derive_key_from_password password salt_b64 = Ok key
        /\ b64decode expected_hash_b64 = Ok key.
Proof.
  unfold verify_password.
  destruct (derive_key_from_password password salt_b64) as [k|e];
    cbn [bind try_except].
  - destruct (b64decode expected_hash_b64) as [h|e]; cbn [bind try_except].
    + split.
      * intros H. apply Ok_inj in H. apply bytes_eqb_eq in H. subst h.
        exists k. split; reflexivity.
      * intros [key [Hk Hh]]. apply Ok_inj in Hk. apply Ok_inj in Hh.
        subst. rewrite bytes_eqb_refl. reflexivity.
    + split; [discriminate | intros [key [_ Hh]]; discriminate].
  - split; [discriminate | intros [key [Hk _]]; discriminate].
Qed.

(** ** Lenient Base64 *)

Lemma b64_byte_value (c : N) : (c <? 128)%N = true -> Z_of_byte (b64_byte c) = Z.of_N c.
Proof.
  intros H. apply N.ltb_lt in H. unfold b64_byte.
  rewrite Z_of_byte_of_Z. apply Z.mod_small. lia.
Qed.

Lemma a2b_base64_loop_filter (s : pystr) :
  is_ascii s = true ->
  forall q l p out,
    a2b_base64_loop (map b64_byte (filter b64_significant s)) q l p out
    = a2b_base64_loop (map b64_byte s) q l p out.
Proof.
  unfold is_ascii.
  induction s as [|c s IH]; intros Hs q l p out; [reflexivity|].
  cbn [forallb] in Hs. apply andb_true_iff in Hs. destruct Hs as [Hc Hs].
  specialize (IH Hs).
  cbn [filter]. destruct (b64_significant c) eqn:Hsig.
  - cbn [map a2b_base64_loop]. cbv zeta.
    destruct (Z_of_byte (b64_byte c) =? BASE64_PAD).
    + destruct (2 <=? q); [destruct (4 <=? q + (p + 1))|];
        try reflexivity; apply IH.
    + destruct (64 <=? table_a2b_base64 (Z_of_byte (b64_byte c))); [apply IH|].
      destruct (q =? 0); [apply IH|].
      destruct (q =? 1); [apply IH|].
      destruct (q =? 2); apply IH.
  - rewrite IH. cbn [map a2b_base64_loop]. cbv zeta.
    rewrite (b64_byte_value c Hc).
    unfold b64_significant in Hsig. apply orb_false_iff in Hsig.
    destruct Hsig as [Hpad Htab].
    apply N.eqb_neq in Hpad. apply Z.ltb_ge in Htab.
    replace (Z.of_N c =? BASE64_PAD) with false
      by (symmetry; apply Z.eqb_neq; unfold BASE64_PAD; lia).
    replace (64 <=? table_a2b_base64 (Z.of_N c)) with true
      by (symmetry; apply Z.leb_le; exact Htab).
    reflexivity.
Qed.

Lemma filter_is_ascii (f : N -> bool) (s : pystr) :
  is_ascii s = true -> is_ascii (filter f s) = true.
Proof.
  unfold is_ascii. induction s as [|c s IH]; cbn [forallb filter]; [reflexivity|].
  intros H. apply andb_true_iff in H. destruct H as [Hc Hs].
  destruct (f c); cbn [forallb]; rewrite ?Hc; auto.
Qed.

Lemma b64decode_filter (s : pystr) :
  is_ascii s = true ->
  b64decode (PyStr (filter b64_significant s)) = b64decode (PyStr s).
Proof.
  intros Hs. unfold b64decode, bytes_from_decode_data, ascii_encode.
  pose proof (filter_is_ascii b64_significant s Hs) as Hf.
  unfold is_ascii in Hs, Hf. rewrite Hs, Hf. cbn [bind]. unfold a2b_base64.
  apply (a2b_base64_loop_filter s Hs).
Qed.

(** X2.  Decoding is lenient: in an ASCII salt, hash or encrypted value every
    character outside the Base64 alphabet and [=] (spaces, line breaks,
    punctuation) is ignored, so removing such characters changes the result
    of none of the three functions. *)
Theorem base64_input_ignores_other_characters
  (password salt hash blob : pystr) (key : bytes) (tag_size : nat) :
  is_ascii salt = true -> is_ascii hash = true -> is_ascii blob = true ->
  derive_key_from_password password (PyStr (filter b64_significant salt))
  = derive_key_from_password password (PyStr salt)
  /\ verify_password password (PyStr (filter b64_significant salt))
                     (PyStr (filter b64_significant hash))
     = verify_password password (PyStr salt) (PyStr hash)
  /\ decrypt_value (PyStr (filter b64_significant blob)) key tag_size
     = decrypt_value (PyStr blob) key tag_size.
Proof.
  intros Hsalt Hhash Hblob.
  unfold verify_password, derive_key_from_password, decrypt_value.
  rewrite (b64decode_filter salt Hsalt), (b64decode_filter hash Hhash),
    (b64decode_filter blob Hblob).
  repeat split.
Qed.

Lemma base64_input_ignores_other_characters_witness :
  decrypt_value (PyStr (py "yv66vvrO263eyviIGmmQ94PydFV8S2/tNVbNQO9+3qUAoQiVPlRaW/ZCB5WH6Q=="))
                example_key default_tag_size
  = decrypt_value (PyStr (py "yv66vvrO263eyviI GmmQ94PydFV8S2/t NVbNQO9+3qUAoQiV PlRaW/ZCB5WH6Q = ="))
                  example_key default_tag_size.
Proof.
  exact (proj2 (proj2 (base64_input_ignores_other_characters
                         (py "pw") (py "A A") (py "B.B")
                         (py "yv66vvrO263eyviI GmmQ94PydFV8S2/t NVbNQO9+3qUAoQiV PlRaW/ZCB5WH6Q = =")
                         example_key default_tag_size
                         eq_refl eq_refl eq_refl))).
Defined.

(** ** Plaintext is released only after authentication *)

Lemma decrypt_value_decoded (ciphertext_b64 : pyvalue) (key data : bytes) :
  b64decode ciphertext_b64 = Ok data ->
  aes_key_length_ok key = true ->
  decrypt_value ciphertext_b64 key default_tag_size
  = try_except
      (plaintext <- AESGCM_decrypt key (firstn 12 data)
                      (skipn 28 data ++ py_slice data 12 28) None ;;
       utf8_decode plaintext)
      (fun e => Raise (mkExn ValueError (py "Decryption failed: " ++ exn_text e))).
Proof.
  intros Hdec Hkey. unfold decrypt_value, default_tag_size.
  rewrite Hdec. cbn [bind]. cbv zeta. unfold AESGCM.
  unfold aes_key_length_ok in Hkey. rewrite Hkey. cbn [bind]. reflexivity.
Qed.

Lemma py_slice_tag_length {A : Type} (data : list A) :
  (28 <= List.length data)%nat -> List.length (py_slice data 12 28) = 16%nat.
Proof.
  intros H. unfold py_slice. rewrite length_firstn, length_skipn. lia.
Qed.

Lemma AESGCM_decrypt_short (key data : bytes) :
  (List.length data < 28)%nat ->
  exists e,
    AESGCM_decrypt key (firstn 12 data) (skipn 28 data ++ py_slice data 12 28) None
    = Raise e.
Proof.
  intros Hlen. destruct (Nat.ltb_spec (List.length data) 8) as [Hs|Hs].
  - eexists. apply AESGCM_decrypt_short_nonce. rewrite length_firstn. lia.
  - eexists. apply AESGCM_decrypt_short_data.
    + rewrite length_firstn. lia.
    + unfold py_slice.
      rewrite length_app, length_skipn, length_firstn, length_skipn. lia.
Qed.

Lemma decrypt_value_ok_inv
  (ciphertext_b64 : pyvalue) (key : bytes) (plaintext : pystr) :
  decrypt_value ciphertext_b64 key default_tag_size = Ok plaintext ->
  exists data,
    b64decode ciphertext_b64 = Ok data
    /\ aes_key_length_ok key = true
    /\ (28 <= List.length data)%nat
    /\ bytes_of_Zs (GCM.tag (AES.key_schedule (Zs_of_bytes key))
                            (Zs_of_bytes (firstn 12 data)) []
                            (Zs_of_bytes (skipn 28 data)))
       = py_slice data 12 28
    /\ utf8_decode
         (bytes_of_Zs (GCM.decrypt_body (AES.key_schedule (Zs_of_bytes key))
                                        (Zs_of_bytes (firstn 12 data))
                                        (Zs_of_bytes (skipn 28 data))))
       = Ok plaintext.
Proof.
  intros Hok.
  destruct (b64decode ciphertext_b64) as [data|e] eqn:Hdec.
  2:{ unfold decrypt_value in Hok. rewrite Hdec in Hok. discriminate. }
  destruct (aes_key_length_ok key) eqn:Hkey.
  2:{ unfold decrypt_value, AESGCM in Hok. rewrite Hdec in Hok.
      cbn [bind] in Hok. cbv zeta in Hok.
      unfold aes_key_length_ok in Hkey. rewrite Hkey in Hok. discriminate. }
  rewrite (decrypt_value_decoded _ _ _ Hdec Hkey) in Hok.
  destruct (Nat.ltb_spec (List.length data) 28) as [Hshort|Hlong].
  { destruct (AESGCM_decrypt_short key data Hshort) as [e He].
    rewrite He in Hok. discriminate. }
  exists data.
  rewrite AESGCM_decrypt_tagged in Hok
    by (rewrite ?length_firstn; try apply py_slice_tag_length; lia).
  destruct (bytes_eqb _ (py_slice data 12 28)) eqn:Htag; [|discriminate].
  apply bytes_eqb_eq in Htag. cbn [bind] in Hok.
  destruct (utf8_decode _) as [p|e] eqn:Hutf; [|discriminate].
  cbn [try_except] in Hok.
  repeat split; try assumption; reflexivity.
Qed.

(** X3.  [decrypt_value] returns a plaintext exactly when the value decodes
    to at least 28 bytes, the key has an AES key length, the GCM tag
    recomputed over [data[28:]] under nonce [data[:12]] equals [data[12:28]],
    and the decrypted bytes are valid UTF-8; in every other case it raises and
    no plaintext is produced. *)
Theorem decrypt_value_ok_iff_authentic
  (ciphertext_b64 : pyvalue) (key : bytes) (plaintext : pystr) :
  decrypt_value ciphertext_b64 key default_tag_size = Ok plaintext
  <-> exists data,
        b64decode ciphertext_b64 = Ok data
        /\ aes_key_length_ok key = true
        /\ (28 <= List.length data)%nat
        /\ bytes_eqb
             (bytes_of_Zs (GCM.tag (AES.key_schedule (Zs_of_bytes key))
                                   (Zs_of_bytes (firstn 12 data)) []
                                   (Zs_of_bytes (skipn 28 data))))
             (py_slice data 12 28) = true
        /\ utf8_decode
             (bytes_of_Zs (GCM.decrypt_body (AES.key_schedule (Zs_of_bytes key))
                                            (Zs_of_bytes (firstn 12 data))
                                            (Zs_of_bytes (skipn 28 data))))
           = Ok plaintext.
Proof.
  split.
  - intros Hok.
    destruct (decrypt_value_ok_inv _ _ _ Hok)
      as (data & Hdec & Hkey & Hlen & Htag & Hutf).
    exists data. rewrite Htag, bytes_eqb_refl. repeat split; assumption.
  - intros (data & Hdec & Hkey & Hlen & Htag & Hutf).
    rewrite (decrypt_value_decoded _ _ _ Hdec Hkey).
    rewrite AESGCM_decrypt_tagged
      by (rewrite ?length_firstn; try apply py_slice_tag_length; lia).
    rewrite Htag. cbn [bind]. rewrite Hutf. reflexivity.
Qed.

(** ** The script as a whole *)










(** ** Counter mode is its own inverse *)

Lemma chunks_fuel_enough {A : Type} (n : nat) :
  (0 < n)%nat ->
  forall (fuel1 fuel2 : nat) (l : list A),
    (List.length l <= fuel1)%nat -> (List.length l <= fuel2)%nat ->
    chunks_fuel fuel1 n l = chunks_fuel fuel2 n l.
Proof.
  intros Hn. induction fuel1 as [|f1 IH]; intros fuel2 l H1 H2.
  - destruct l; [|cbn in H1; lia]. destruct fuel2; reflexivity.
  - destruct l as [|x l]; [destruct fuel2; reflexivity|].
    destruct fuel2 as [|f2]; [cbn in H2; lia|].
    cbn [chunks_fuel]. f_equal.
    apply IH; rewrite length_skipn; cbn [List.length] in *; lia.
Qed.

Lemma chunks_cons {A : Type} (n : nat) (l : list A) :
  (0 < n)%nat -> l <> [] ->
  chunks n l = firstn n l :: chunks n (skipn n l).
Proof.
  intros Hn Hl. unfold chunks. destruct l as [|x l]; [congruence|].
  cbn [List.length chunks_fuel]. f_equal.
  apply chunks_fuel_enough; [exact Hn | | lia].
  rewrite length_skipn. cbn [List.length]. lia.
Qed.

Lemma Forall_firstn {A : Type} (P : A -> Prop) (n : nat) (l : list A) :
  Forall P l -> Forall P (firstn n l).
Proof.
  intros H. revert n. induction H as [|x l Hx Hl IH]; intros [|n]; cbn;
    constructor; auto.
Qed.

Lemma Forall_skipn {A : Type} (P : A -> Prop) (n : nat) (l : list A) :
  Forall P l -> Forall P (skipn n l).
Proof.
  intros H. revert n. induction H as [|x l Hx Hl IH]; intros [|n]; cbn; auto.
Qed.

Lemma Zs_of_bytes_range (data : bytes) :
  Forall (fun z => 0 <= z < 256) (Zs_of_bytes data).
Proof.
  unfold Zs_of_bytes. induction data as [|b data IH]; cbn [map]; constructor;
    [apply Z_of_byte_range | exact IH].
Qed.

Lemma Zs_of_bytes_of_Zs (l : list Z) :
  Forall (fun z => 0 <= z < 256) l -> Zs_of_bytes (bytes_of_Zs l) = l.
Proof.
  unfold Zs_of_bytes, bytes_of_Zs. induction 1 as [|z l Hz Hl IH]; cbn [map];
    [reflexivity|].
  rewrite IH, Z_of_byte_of_Z, Z.mod_small by exact Hz. reflexivity.
Qed.

Lemma bytes_of_Zs_of_bytes (data : bytes) : bytes_of_Zs (Zs_of_bytes data) = data.
Proof.
  unfold Zs_of_bytes, bytes_of_Zs. induction data as [|b data IH]; cbn [map];
    [reflexivity|].
  rewrite IH, byte_of_Z_of_byte. reflexivity.
Qed.

Lemma Z_to_be_range (n : nat) (z : Z) : Forall (fun z => 0 <= z < 256) (Z_to_be n z).
Proof.
  revert z. induction n as [|n IH]; intros z; cbn [Z_to_be]; [constructor|].
  apply Forall_app. split; [apply IH|]. constructor; [|constructor].
  change 255 with (Z.ones 8). rewrite Z.land_ones by lia.
  apply Z.mod_pos_bound. lia.
Qed.

Lemma lxor_byte_range (a b : Z) :
  0 <= a < 256 -> 0 <= b < 256 -> 0 <= Z.lxor a b < 256.
Proof.
  intros Ha Hb.
  pose proof (forall_below2 256
    (fun a b => (0 <=? Z.lxor a b) && (Z.lxor a b <? 256))
    ltac:(vm_compute; reflexivity) a b Ha Hb) as H.
  cbv beta in H. apply andb_true_iff in H. lia.
Qed.

Lemma xor_list_length (a b : list Z) :
  List.length (AES.xor_list a b) = Nat.min (List.length a) (List.length b).
Proof. unfold AES.xor_list. rewrite length_map, length_combine. reflexivity. Qed.

Lemma xor_list_range (a b : list Z) :
  Forall (fun z => 0 <= z < 256) a -> Forall (fun z => 0 <= z < 256) b ->
  Forall (fun z => 0 <= z < 256) (AES.xor_list a b).
Proof.
  intros Ha. revert b. unfold AES.xor_list.
  induction Ha as [|x a Hx Ha IH]; intros b Hb; [constructor|].
  destruct Hb as [|y b Hy Hb]; cbn [combine map]; constructor.
  - cbn [fst snd]. apply lxor_byte_range; assumption.
  - apply IH. exact Hb.
Qed.

Lemma xor_list_involutive (a k : list Z) :
  (List.length a <= List.length k)%nat ->
  AES.xor_list (AES.xor_list a k) k = a.
Proof.
  unfold AES.xor_list. revert k.
  induction a as [|x a IH]; intros k Hk; [reflexivity|].
  destruct k as [|y k]; [cbn in Hk; lia|].
  cbn [combine map fst snd]. rewrite IH by (cbn in Hk; lia).
  rewrite Z.lxor_assoc, Z.lxor_nilpotent, Z.lxor_0_r. reflexivity.
Qed.

Section GCTR.

Variable rks : list (list Z).

Lemma gctr_cons (cb : Z) (data : list Z) :
  data <> [] ->
  GCM.gctr rks cb data
  = AES.xor_list (firstn 16 data) (Z_to_be 16 (GCM.E rks cb))
    ++ GCM.gctr rks (GCM.inc32 cb) (skipn 16 data).
Proof.
  intros Hd. unfold GCM.gctr. rewrite (chunks_cons 16 data) by (lia || exact Hd).
  reflexivity.
Qed.

Lemma gctr_length (n : nat) :
  forall data cb,
    (List.length data <= n)%nat ->
    List.length (GCM.gctr rks cb data) = List.length data.
Proof.
  induction n as [|n IH]; intros data cb Hn.
  - destruct data; [reflexivity | cbn in Hn; lia].
  - destruct data as [|x data]; [reflexivity|].
    rewrite gctr_cons by discriminate.
    rewrite length_app, xor_list_length, Z_to_be_length, length_firstn, IH.
    + rewrite length_skipn. lia.
    + rewrite length_skipn. cbn [List.length] in *. lia.
Qed.

Lemma gctr_range (n : nat) :
  forall data cb,
    (List.length data <= n)%nat ->
    Forall (fun z => 0 <= z < 256) data ->
    Forall (fun z => 0 <= z < 256) (GCM.gctr rks cb data).
Proof.
  induction n as [|n IH]; intros data cb Hn Hr.
  - destruct data; [constructor | cbn in Hn; lia].
  - destruct data as [|x data]; [constructor|].
    rewrite gctr_cons by discriminate. apply Forall_app. split.
    + apply xor_list_range; [apply Forall_firstn; exact Hr | apply Z_to_be_range].
    + apply IH; [|apply Forall_skipn; exact Hr].
      rewrite length_skipn. cbn [List.length] in *. lia.
Qed.

Lemma gctr_involutive (n : nat) :
  forall data cb,
    (List.length data <= n)%nat ->
    GCM.gctr rks cb (GCM.gctr rks cb data) = data.
Proof.
  induction n as [|n IH]; intros data cb Hn.
  - destruct data; [reflexivity | cbn in Hn; lia].
  - destruct data as [|x data]; [reflexivity|].
    remember (x :: data) as d eqn:Ed.
    assert (Hd : d <> []) by (subst d; discriminate).
    assert (Hpos : (1 <= List.length d)%nat) by (subst d; cbn [List.length]; lia).
    clear Ed x data.
    rewrite (gctr_cons cb d Hd).
    set (X := AES.xor_list (firstn 16 d) (Z_to_be 16 (GCM.E rks cb))).
    set (R := GCM.gctr rks (GCM.inc32 cb) (skipn 16 d)).
    assert (HX : List.length X = Nat.min 16 (List.length d)).
    { unfold X. rewrite xor_list_length, Z_to_be_length, length_firstn. lia. }
    assert (Hinv : AES.xor_list X (Z_to_be 16 (GCM.E rks cb)) = firstn 16 d).
    { unfold X. apply xor_list_involutive.
      rewrite Z_to_be_length, length_firstn. lia. }
    assert (Hne : X ++ R <> []).
    { intros E. apply (f_equal (@List.length Z)) in E.
      rewrite length_app, HX in E. cbn [List.length] in E. lia. }
    rewrite (gctr_cons cb (X ++ R) Hne).
    destruct (Nat.le_gt_cases 16 (List.length d)) as [Hlong|Hshort].
    + assert (H16 : List.length X = 16%nat) by lia.
      rewrite <- H16 at 1 3. rewrite firstn_length_app, skipn_length_app.
      rewrite Hinv. unfold R. rewrite IH.
      * apply firstn_skipn.
      * rewrite length_skipn. lia.
    + assert (HR : R = []).
      { unfold R. rewrite skipn_all2 by lia. reflexivity. }
      rewrite HR, app_nil_r.
      rewrite (firstn_all2 (n := 16) X) by lia.
      rewrite (skipn_all2 (n := 16) X) by lia.
      rewrite Hinv.
      change (GCM.gctr rks (GCM.inc32 cb) []) with (@nil Z).
      rewrite app_nil_r. apply firstn_all2. lia.
Qed.

(** Decrypting the bytes produced by the counter-mode pass gives the
    original bytes back. *)
Lemma gcm_body_round_trip (iv : list Z) (plaintext : bytes) :
  bytes_of_Zs
    (GCM.decrypt_body rks iv
       (Zs_of_bytes (bytes_of_Zs (GCM.decrypt_body rks iv (Zs_of_bytes plaintext)))))
  = plaintext.
Proof.
  unfold GCM.decrypt_body.
  rewrite Zs_of_bytes_of_Zs
    by (apply (gctr_range (List.length (Zs_of_bytes plaintext)));
        [lia | apply Zs_of_bytes_range]).
  rewrite (gctr_involutive (List.length (Zs_of_bytes plaintext))) by lia.
  apply bytes_of_Zs_of_bytes.
Qed.

Lemma gcm_tag_length (iv aad ct : list Z) :
  List.length (GCM.tag rks iv aad ct) = 16%nat.
Proof.
  unfold GCM.tag. cbv zeta.
  rewrite (gctr_length 16) by (rewrite Z_to_be_length; lia).
  apply Z_to_be_length.
Qed.

End GCTR.

(** ** UTF-8: decoding inverts encoding *)

Lemma lor_is_add (x : Z) :
  0 <= x < 64 ->
  Z.lor 0x80 x = 0x80 + x
  /\ Z.lor 0xC0 x = 0xC0 + x
  /\ (x < 32 -> Z.lor 0xE0 x = 0xE0 + x)
  /\ (x < 16 -> Z.lor 0xF0 x = 0xF0 + x).
Proof.
  intros Hx.
  pose proof (forall_below 64
    (fun x => (Z.lor 0x80 x =? 0x80 + x) && (Z.lor 0xC0 x =? 0xC0 + x)
              && ((32 <=? x) || (Z.lor 0xE0 x =? 0xE0 + x))
              && ((16 <=? x) || (Z.lor 0xF0 x =? 0xF0 + x)))
    ltac:(vm_compute; reflexivity) x Hx) as H.
  cbv beta in H. rewrite !andb_true_iff, !orb_true_iff, !Z.eqb_eq, !Z.leb_le in H.
  destruct H as [[[H1 H2] H3] H4].
  repeat split; try assumption; intros; [destruct H3 | destruct H4]; lia.
Qed.

Lemma shiftr_is_div (z : Z) :
  Z.shiftr z 6 = z / 64 /\ Z.shiftr z 12 = z / 4096 /\ Z.shiftr z 18 = z / 262144.
Proof. rewrite !Z.shiftr_div_pow2 by lia. repeat split. Qed.

Lemma cont_byte_value (v : Z) : 0 <= v -> Z_of_byte (cont_byte v) = 0x80 + v mod 64.
Proof.
  intros Hv. unfold cont_byte. rewrite Z_of_byte_of_Z.
  change 0x3F with (Z.ones 6). rewrite Z.land_ones by lia.
  change (2 ^ 6) with 64.
  pose proof (Z.mod_pos_bound v 64 ltac:(lia)) as Hm.
  destruct (lor_is_add (v mod 64) Hm) as [H _]. rewrite H.
  apply Z.mod_small. lia.
Qed.

Lemma lead_byte_values (z : Z) :
  (0x80 <= z < 0x800 ->
   Z_of_byte (byte_of_Z (Z.lor 0xC0 (Z.shiftr z 6))) = 0xC0 + z / 64)
  /\ (0x800 <= z < 0x10000 ->
      Z_of_byte (byte_of_Z (Z.lor 0xE0 (Z.shiftr z 12))) = 0xE0 + z / 4096)
  /\ (0x10000 <= z < 0x110000 ->
      Z_of_byte (byte_of_Z (Z.lor 0xF0 (Z.shiftr z 18))) = 0xF0 + z / 262144).
Proof.
  destruct (shiftr_is_div z) as (S6 & S12 & S18). rewrite S6, S12, S18.
  repeat split; intros Hz; rewrite Z_of_byte_of_Z.
  - assert (Hq : 0 <= z / 64 < 64) by (Z.div_mod_to_equations; lia).
    destruct (lor_is_add _ Hq) as (_ & H & _). rewrite H.
    apply Z.mod_small. Z.div_mod_to_equations. lia.
  - assert (Hq : 0 <= z / 4096 < 64) by (Z.div_mod_to_equations; lia).
    destruct (lor_is_add _ Hq) as (_ & _ & H & _).
    rewrite H by (Z.div_mod_to_equations; lia).
    apply Z.mod_small. Z.div_mod_to_equations. lia.
  - assert (Hq : 0 <= z / 262144 < 64) by (Z.div_mod_to_equations; lia).
    destruct (lor_is_add _ Hq) as (_ & _ & _ & H).
    rewrite H by (Z.div_mod_to_equations; lia).
    apply Z.mod_small. Z.div_mod_to_equations. lia.
Qed.

(** Settles every comparison of the goal by arithmetic and reduces the
    conditionals they guard. *)
Ltac settle_tests :=
  repeat (match goal with
          | |- context [?a <? ?b] =>
            first [ replace (a <? b) with true
                      by (symmetry; apply Z.ltb_lt; Z.div_mod_to_equations; lia)
                  | replace (a <? b) with false
                      by (symmetry; apply Z.ltb_ge; Z.div_mod_to_equations; lia)
                  | let E := fresh "E" in
                    destruct (a <? b) eqn:E;
                    [apply Z.ltb_lt in E | apply Z.ltb_ge in E] ]
          | |- context [?a <=? ?b] =>
            first [ replace (a <=? b) with true
                      by (symmetry; apply Z.leb_le; Z.div_mod_to_equations; lia)
                  | replace (a <=? b) with false
                      by (symmetry; apply Z.leb_gt; Z.div_mod_to_equations; lia) ]
          | |- context [?a =? ?b] =>
            first [ replace (a =? b) with true
                      by (symmetry; apply Z.eqb_eq; Z.div_mod_to_equations; lia)
                  | replace (a =? b) with false
                      by (symmetry; apply Z.eqb_neq; Z.div_mod_to_equations; lia) ]
          end; cbv beta iota; cbn [negb orb andb]).

Section UTF8_steps.

Variables (rest : bytes) (pos : N).

Lemma utf8_decode_1 (z : Z) :
  0 <= z < 0x80 ->
  utf8_decode_from pos (byte_of_Z z :: rest)
  = tl <- utf8_decode_from (pos + 1) rest ;; Ok (Z.to_N z :: tl).
Proof.
  intros Hz. cbn [utf8_decode_from]. cbv zeta.
  rewrite Z_of_byte_of_Z, Z.mod_small by lia.
  settle_tests. reflexivity.
Qed.

Lemma utf8_decode_2 (z : Z) :
  0x80 <= z < 0x800 ->
  utf8_decode_from pos
    (byte_of_Z (Z.lor 0xC0 (Z.shiftr z 6)) :: cont_byte z :: rest)
  = tl <- utf8_decode_from (pos + 2) rest ;; Ok (Z.to_N z :: tl).
Proof.
  intros Hz. cbn [utf8_decode_from]. cbv zeta. unfold is_continuation.
  destruct (lead_byte_values z) as (L & _). rewrite (L Hz).
  rewrite (cont_byte_value z) by lia.
  rewrite !Z.shiftl_mul_pow2 by lia.
  settle_tests;
    match goal with
    | |- context [Z.to_N (?a - ?b)] =>
      replace (a - b) with z by (Z.div_mod_to_equations; lia)
    end;
    reflexivity.
Qed.

Lemma utf8_decode_3 (z : Z) :
  0x800 <= z < 0x10000 -> ~ (0xD800 <= z <= 0xDFFF) ->
  utf8_decode_from pos
    (byte_of_Z (Z.lor 0xE0 (Z.shiftr z 12)) :: cont_byte (Z.shiftr z 6)
     :: cont_byte z :: rest)
  = tl <- utf8_decode_from (pos + 3) rest ;; Ok (Z.to_N z :: tl).
Proof.
  intros Hz Hs. cbn [utf8_decode_from]. cbv zeta. unfold is_continuation.
  destruct (lead_byte_values z) as (_ & L & _). rewrite (L Hz).
  destruct (shiftr_is_div z) as (S6 & _).
  rewrite (cont_byte_value z), (cont_byte_value (Z.shiftr z 6))
    by (rewrite ?S6; Z.div_mod_to_equations; lia).
  rewrite S6. rewrite !Z.shiftl_mul_pow2 by lia.
  settle_tests;
    match goal with
    | |- context [Z.to_N (?a - ?b)] =>
      replace (a - b) with z by (Z.div_mod_to_equations; lia)
    end;
    reflexivity.
Qed.

Lemma utf8_decode_4 (z : Z) :
  0x10000 <= z < 0x110000 ->
  utf8_decode_from pos
    (byte_of_Z (Z.lor 0xF0 (Z.shiftr z 18)) :: cont_byte (Z.shiftr z 12)
     :: cont_byte (Z.shiftr z 6) :: cont_byte z :: rest)
  = tl <- utf8_decode_from (pos + 4) rest ;; Ok (Z.to_N z :: tl).
Proof.
  intros Hz. cbn [utf8_decode_from]. cbv zeta. unfold is_continuation.
  destruct (lead_byte_values z) as (_ & _ & L). rewrite (L Hz).
  destruct (shiftr_is_div z) as (S6 & S12 & _).
  rewrite (cont_byte_value z), (cont_byte_value (Z.shiftr z 6)),
    (cont_byte_value (Z.shiftr z 12))
    by (rewrite ?S6, ?S12; Z.div_mod_to_equations; lia).
  rewrite S6, S12. rewrite !Z.shiftl_mul_pow2 by lia.
  settle_tests;
    match goal with
    | |- context [Z.to_N (?a - ?b)] =>
      replace (a - b) with z by (Z.div_mod_to_equations; lia)
    end;
    reflexivity.
Qed.

End UTF8_steps.

Lemma not_surrogate_range (c : N) :
  is_surrogate c = false -> ~ (0xD800 <= Z.of_N c <= 0xDFFF).
Proof.
  unfold is_surrogate. intros H [H1 H2].
  apply andb_false_iff in H. destruct H as [H|H].
  - apply N.leb_gt in H. lia.
  - apply N.leb_gt in H. lia.
Qed.

Lemma utf8_decode_encode (s : pystr) :
  forallb is_scalar_value s = true ->
  forall pos pos' data,
    utf8_encode_from pos s = Ok data ->
    utf8_decode_from pos' data = Ok s.
Proof.
  induction s as [|c r IH]; intros Hs pos pos' data Henc.
  - cbn in Henc. apply Ok_inj in Henc. subst data. reflexivity.
  - cbn [forallb] in Hs. apply andb_true_iff in Hs. destruct Hs as [Hc Hr].
    unfold is_scalar_value in Hc. apply andb_true_iff in Hc.
    destruct Hc as [Hmax Hsur]. apply negb_true_iff in Hsur.
    apply N.ltb_lt in Hmax.
    pose proof (not_surrogate_range c Hsur) as Hns.
    cbn [utf8_encode_from] in Henc. cbv zeta in Henc. rewrite Hsur in Henc.
    destruct (utf8_encode_from (pos + 1) r) as [tl|e] eqn:Htl;
      cbn [bind] in Henc; [|discriminate].
    apply Ok_inj in Henc. subst data.
    assert (Hz : Z.to_N (Z.of_N c) = c) by apply N2Z.id.
    destruct (Z.of_N c <? 0x80) eqn:E1.
    { apply Z.ltb_lt in E1. cbn [app].
      rewrite utf8_decode_1 by lia. rewrite (IH Hr _ _ _ Htl). cbn [bind].
      rewrite Hz. reflexivity. }
    apply Z.ltb_ge in E1.
    destruct (Z.of_N c <? 0x800) eqn:E2.
    { apply Z.ltb_lt in E2. cbn [app].
      rewrite utf8_decode_2 by lia. rewrite (IH Hr _ _ _ Htl). cbn [bind].
      rewrite Hz. reflexivity. }
    apply Z.ltb_ge in E2.
    destruct (Z.of_N c <? 0x10000) eqn:E3.
    { apply Z.ltb_lt in E3. cbn [app].
      rewrite utf8_decode_3 by (lia || exact Hns). rewrite (IH Hr _ _ _ Htl).
      cbn [bind]. rewrite Hz. reflexivity. }
    apply Z.ltb_ge in E3. cbn [app].
    rewrite utf8_decode_4 by lia. rewrite (IH Hr _ _ _ Htl). cbn [bind].
    rewrite Hz. reflexivity.
Qed.

(** ** Sealed values decrypt to their plaintext *)

Lemma layout_split {A : Type} (nonce tag ciphertext : list A) :
  List.length nonce = 12%nat -> List.length tag = 16%nat ->
  firstn 12 (nonce ++ tag ++ ciphertext) = nonce
  /\ py_slice (nonce ++ tag ++ ciphertext) 12 28 = tag
  /\ skipn 28 (nonce ++ tag ++ ciphertext) = ciphertext.
Proof.
  intros Hn Ht.
  assert (H12 : skipn 12 (nonce ++ tag ++ ciphertext) = tag ++ ciphertext).
  { replace (skipn 12 (nonce ++ tag ++ ciphertext))
      with (skipn (List.length nonce) (nonce ++ tag ++ ciphertext))
      by (rewrite Hn; reflexivity).
    apply skipn_length_app. }
  split; [|split].
  - replace (firstn 12 (nonce ++ tag ++ ciphertext))
      with (firstn (List.length nonce) (nonce ++ tag ++ ciphertext))
      by (rewrite Hn; reflexivity).
    apply firstn_length_app.
  - unfold py_slice. change (28 - 12)%nat with 16%nat. rewrite H12.
    replace (firstn 16 (tag ++ ciphertext))
      with (firstn (List.length tag) (tag ++ ciphertext))
      by (rewrite Ht; reflexivity).
    apply firstn_length_app.
  - replace (skipn 28 (nonce ++ tag ++ ciphertext))
      with (skipn 16 (skipn 12 (nonce ++ tag ++ ciphertext)))
      by (rewrite skipn_skipn; reflexivity).
    rewrite H12.
    replace (skipn 16 (tag ++ ciphertext))
      with (skipn (List.length tag) (tag ++ ciphertext))
      by (rewrite Ht; reflexivity).
    apply skipn_length_app.
Qed.

Lemma sealed_text_decrypts (plaintext : pystr) (data key nonce : bytes) :
  aes_key_length_ok key = true ->
  List.length nonce = 12%nat ->
  forallb (fun c => (c <? 0x110000)%N) plaintext = true ->
  utf8_encode plaintext = Ok data ->
  decrypt_value
    (PyStr (b64encode
              (nonce
               ++ bytes_of_Zs
                    (GCM.tag (AES.key_schedule (Zs_of_bytes key)) (Zs_of_bytes nonce) []
                       (Zs_of_bytes
                          (bytes_of_Zs
                             (GCM.decrypt_body (AES.key_schedule (Zs_of_bytes key))
                                (Zs_of_bytes nonce) (Zs_of_bytes data)))))
               ++ bytes_of_Zs
                    (GCM.decrypt_body (AES.key_schedule (Zs_of_bytes key))
                       (Zs_of_bytes nonce) (Zs_of_bytes data)))))
    key default_tag_size
  = Ok plaintext.
Proof.
  intros Hkey Hnonce Htext Henc.
  set (rks := AES.key_schedule (Zs_of_bytes key)) in *.
  set (iv := Zs_of_bytes nonce) in *.
  set (ciphertext := bytes_of_Zs (GCM.decrypt_body rks iv (Zs_of_bytes data))).
  set (tag := bytes_of_Zs (GCM.tag rks iv [] (Zs_of_bytes ciphertext))).
  assert (Htag : List.length tag = 16%nat).
  { unfold tag, bytes_of_Zs. rewrite length_map. apply gcm_tag_length. }
  rewrite (decrypt_value_decoded _ key (nonce ++ tag ++ ciphertext))
    by (apply b64decode_b64encode || exact Hkey).
  destruct (layout_split nonce tag ciphertext Hnonce Htag) as (L1 & L2 & L3).
  rewrite L1, L2, L3.
  rewrite AESGCM_decrypt_tagged by (lia || exact Htag).
  fold rks iv. fold tag. rewrite bytes_eqb_refl. cbn [bind].
  unfold ciphertext. rewrite gcm_body_round_trip.
  assert (Hscalar : forallb is_scalar_value plaintext = true).
  { assert (Hns : forallb (fun c => negb (is_surrogate c)) plaintext = true).
    { apply utf8_encode_ok. exists data. exact Henc. }
    rewrite forallb_forall in *. intros c Hin. unfold is_scalar_value.
    rewrite (Htext c Hin), (Hns c Hin). reflexivity. }
  unfold utf8_decode. rewrite (utf8_decode_encode plaintext Hscalar _ _ _ Henc).
  reflexivity.
Qed.

(** X6.  Round trip with the documented format: a value sealed as
    Base64(nonce, tag, ciphertext) with AES-GCM under a key of AES length and
    a 12-byte nonce decrypts, under the same key, to exactly the text that
    was sealed. *)
Theorem decrypt_value_recovers_sealed_plaintext
  (plaintext : pystr) (key nonce : bytes) (blob : pystr) :
  aes_key_length_ok key = true ->
  List.length nonce = 12%nat ->
  forallb (fun c => (c <? 0x110000)%N) plaintext = true ->
  seal_value plaintext key nonce = Ok blob ->
  decrypt_value (PyStr blob) key default_tag_size = Ok plaintext.
Proof.
  intros Hkey Hnonce Htext Hseal. unfold seal_value in Hseal.
  destruct (utf8_encode plaintext) as [data|e] eqn:Henc;
    cbn [bind] in Hseal; [|discriminate].
  cbv zeta in Hseal. apply Ok_inj in Hseal. subst blob.
  apply sealed_text_decrypts; assumption.
Qed.

Lemma decrypt_value_recovers_sealed_plaintext_witness :
  decrypt_value (PyStr example_blob) example_key default_tag_size
  = Ok (py "db-password=s3cret").
Proof.
  apply (decrypt_value_recovers_sealed_plaintext
           (py "db-password=s3cret") example_key
           (bytes_of_Zs (unhex "cafebabefacedbaddecaf888")) example_blob);
    vm_compute; reflexivity.
Defined.

(** ** An altered tag is always rejected *)

(** X7.  If a value decrypts, every value that carries the same nonce and
    ciphertext but different tag bytes is rejected with the message
    [Decryption failed: ] (the empty text of [InvalidTag]); no plaintext is
    returned for it. *)
Theorem decrypt_value_rejects_altered_tag
  (blob blob' : pystr) (key data data' : bytes) (plaintext : pystr) :
  b64decode (PyStr blob) = Ok data ->
  b64decode (PyStr blob') = Ok data' ->
  decrypt_value (PyStr blob) key default_tag_size = Ok plaintext ->
  firstn 12 data' = firstn 12 data ->
  skipn 28 data' = skipn 28 data ->
  py_slice data' 12 28 <> py_slice data 12 28 ->
  decrypt_value (PyStr blob') key default_tag_size
  = Raise (mkExn ValueError (py "Decryption failed: ")).
Proof.
  intros Hdec Hdec' Hok Hnonce Hct Htag.
  destruct (decrypt_value_ok_inv _ _ _ Hok)
    as (d & Hd & Hkey & Hlen & Hauth & _).
  rewrite Hdec in Hd. apply Ok_inj in Hd. subst d.
  assert (Hn12 : List.length (firstn 12 data') = 12%nat).
  { rewrite Hnonce, length_firstn. lia. }
  rewrite (decrypt_value_decoded _ _ _ Hdec' Hkey).
  destruct (Nat.ltb_spec (List.length data') 28) as [Hshort|Hlong].
  - rewrite AESGCM_decrypt_short_data.
    + reflexivity.
    + lia.
    + unfold py_slice.
      rewrite length_app, length_skipn, length_firstn, length_skipn. lia.
  - rewrite AESGCM_decrypt_tagged
      by (try apply py_slice_tag_length; lia).
    rewrite Hnonce, Hct, Hauth.
    destruct (bytes_eqb (py_slice data 12 28) (py_slice data' 12 28)) eqn:E.
    + apply bytes_eqb_eq in E. congruence.
    + reflexivity.
Qed.

Lemma decrypt_value_rejects_altered_tag_witness :
  decrypt_value (PyStr example_blob_altered_tag) example_key default_tag_size
  = Raise (mkExn ValueError (py "Decryption failed: ")).
Proof.
  apply (decrypt_value_rejects_altered_tag
           example_blob example_blob_altered_tag example_key
           example_data example_data_altered_tag (py "db-password=s3cret"));
    try (vm_compute; reflexivity).
  vm_compute. discriminate.
Defined.

(** ** A run over sealed secrets recovers all of them *)







(** ** Skipped services leave no trace *)


